(** * ai-task-scheduler: the availability-slot search and the scheduling flow

    A shallow embedding of [GoogleCalendarService.findAvailableSlots]
    (src/services/calendar.ts) and of [TaskSchedulingAgent.createAndScheduleTask]
    with its callers ([processMessage] of the same class and [POST /tasks] of
    src/routes/api.ts), followed by the properties of the specification that
    concern them.

    Conventions of the embedding.
    - A JavaScript [Date] is its time value: a [Z] number of milliseconds since
      the epoch.  Invalid dates (NaN time values) and the [TimeClip] range of
      +-8.64e15 ms are outside the model.
    - [durationMinutes] is an integer number of minutes ([Z], any sign).
    - The host time zone of the process (used by [getHours], [getMinutes],
      [setHours], [setMinutes]) is a parameter [tz : TimeZone].
    - The reference zone of the hour checks is America/Los_Angeles, modelled
      with the United States rule in force since 2007.
    - [toLocaleString('en-US', {hour: 'numeric', hour12: false})] prints the
      midnight hour as 24 on engines that resolve [hour12: false] to the h24
      cycle and as 0 on engines that resolve it to h23; the cycle is a
      parameter [hc : HourCycle].
    - A promise is its outcome: [Resolved v] or [Threw message]. *)

From Stdlib Require Import ZArith List Bool String DecimalString Lia Sorted.
Import ListNotations.
Local Open Scope Z_scope.
Set Warnings "-notation-for-abbreviation".

(** ** ECMAScript time values (ECMA-262, "Date objects") *)

Module JSDate.

Definition msPerSecond : Z := 1000.
Definition msPerMinute : Z := 60000.
Definition msPerHour : Z := 3600000.
Definition msPerDay : Z := 86400000.

Definition Day (t : Z) : Z := t / msPerDay.
Definition HourFromTime (t : Z) : Z := (t / msPerHour) mod 24.
Definition MinFromTime (t : Z) : Z := (t / msPerMinute) mod 60.
Definition SecFromTime (t : Z) : Z := (t / msPerSecond) mod 60.
Definition msFromTime (t : Z) : Z := t mod msPerSecond.

Definition MakeTime (hour min sec ms : Z) : Z :=
  hour * msPerHour + min * msPerMinute + sec * msPerSecond + ms.
Definition MakeDate (day time : Z) : Z := day * msPerDay + time.

(** A time zone as ECMA-262 sees it: [LocalTZA(t, true)] gives the offset in
    force at the instant [t]; [LocalTZA(tlocal, false)] gives the offset used to
    read a wall-clock value back (for a skipped or repeated wall-clock value,
    the offset before the transition). *)
Record TimeZone : Type := mkTimeZone {
  tzaOfUTC : Z -> Z;
  tzaOfLocal : Z -> Z
}.

Definition LocalTime (tz : TimeZone) (t : Z) : Z := t + tzaOfUTC tz t.
Definition UTC (tz : TimeZone) (tlocal : Z) : Z := tlocal - tzaOfLocal tz tlocal.

Definition getTime (t : Z) : Z := t.
Definition getHours (tz : TimeZone) (t : Z) : Z := HourFromTime (LocalTime tz t).
Definition getMinutes (tz : TimeZone) (t : Z) : Z := MinFromTime (LocalTime tz t).

(** [date.setMinutes(min)]: seconds and milliseconds are kept. *)
Definition setMinutes (tz : TimeZone) (t min : Z) : Z :=
  let lt := LocalTime tz t in
  UTC tz (MakeDate (Day lt)
            (MakeTime (HourFromTime lt) min (SecFromTime lt) (msFromTime lt))).

(** [date.setMinutes(min, sec, ms)]. *)
Definition setMinutes3 (tz : TimeZone) (t min sec ms : Z) : Z :=
  let lt := LocalTime tz t in
  UTC tz (MakeDate (Day lt) (MakeTime (HourFromTime lt) min sec ms)).

(** [date.setHours(hour, min, sec, ms)]. *)
Definition setHours4 (tz : TimeZone) (t hour min sec ms : Z) : Z :=
  let lt := LocalTime tz t in
  UTC tz (MakeDate (Day lt) (MakeTime hour min sec ms)).

(** [Math.ceil(a / b)] for integers [a] and [b > 0]. *)
Definition ceilDiv (a b : Z) : Z := - ((- a) / b).

(** A zone whose offset never changes (UTC, or any zone without transitions). *)
Definition fixedZone (offsetMs : Z) : TimeZone :=
  mkTimeZone (fun _ => offsetMs) (fun _ => offsetMs).

Definition utcZone : TimeZone := fixedZone 0.

(** An instant is canonical in a zone when reading its wall-clock value back
    gives the instant again (every instant of a fixed zone; in a zone with
    transitions, every instant but those of a repeated wall-clock hour's
    second pass). *)
Definition canonical (tz : TimeZone) (t : Z) : Prop := UTC tz (LocalTime tz t) = t.

(** The zones in which the wall clock goes forward: reading a wall-clock value
    gives a canonical instant, and from a canonical instant a later wall-clock
    value reads as a later instant. *)
Record ForwardZone (tz : TimeZone) : Prop := mkForwardZone {
  utc_canonical : forall tlocal, canonical tz (UTC tz tlocal);
  local_forward : forall t d, canonical tz t -> 0 < d ->
                              t < UTC tz (LocalTime tz t + d)
}.

(** *** Civil calendar, as far as the zone rules need it *)

Definition DaysInYear (y : Z) : Z :=
  if negb (y mod 4 =? 0) then 365
  else if negb (y mod 100 =? 0) then 366
  else if negb (y mod 400 =? 0) then 365
  else 366.

Definition InLeapYear (y : Z) : Z := DaysInYear y - 365.

Definition DayFromYear (y : Z) : Z :=
  365 * (y - 1970) + (y - 1969) / 4 - (y - 1901) / 100 + (y - 1601) / 400.

Definition TimeFromYear (y : Z) : Z := msPerDay * DayFromYear y.

(** The proleptic Gregorian year of a day number (days since 1970-01-01). *)
Definition YearFromDay (day : Z) : Z :=
  let z := day + 719468 in
  let era := z / 146097 in
  let doe := z - era * 146097 in
  let yoe := (doe - doe / 1460 + doe / 36524 - doe / 146096) / 365 in
  let doy := doe - (365 * yoe + yoe / 4 - yoe / 100) in
  let mp := (5 * doy + 2) / 153 in
  yoe + era * 400 + (if mp <? 10 then 0 else 1).

Definition YearFromTime (t : Z) : Z := YearFromDay (Day t).

(** 0 = Sunday; 1970-01-01 was a Thursday. *)
Definition WeekDay (day : Z) : Z := (day + 4) mod 7.

Definition firstSundayOnOrAfter (day : Z) : Z := day + (7 - WeekDay day) mod 7.

(** *** America/Los_Angeles

    Standard time is UTC-8, daylight time UTC-7.  Daylight time starts on the
    second Sunday of March at 02:00 standard time and ends on the first Sunday
    of November at 02:00 daylight time. *)

Definition pstOffset : Z := -8 * msPerHour.
Definition pdtOffset : Z := -7 * msPerHour.

Definition dstStartDay (y : Z) : Z :=
  firstSundayOnOrAfter (DayFromYear y + 59 + InLeapYear y) + 7.
Definition dstEndDay (y : Z) : Z :=
  firstSundayOnOrAfter (DayFromYear y + 304 + InLeapYear y).

Definition laOffsetAt (t : Z) : Z :=
  let y := YearFromTime t in
  if (dstStartDay y * msPerDay + 10 * msPerHour <=? t)
     && (t <? dstEndDay y * msPerDay + 9 * msPerHour)
  then pdtOffset else pstOffset.

Definition laOffsetOfLocal (tlocal : Z) : Z :=
  let y := YearFromTime tlocal in
  if (dstStartDay y * msPerDay + 3 * msPerHour <=? tlocal)
     && (tlocal <? dstEndDay y * msPerDay + 2 * msPerHour)
  then pdtOffset else pstOffset.

Definition losAngeles : TimeZone := mkTimeZone laOffsetAt laOffsetOfLocal.

(** *** The hour printed by [toLocaleString] *)

Inductive HourCycle : Type := H23 | H24.

(** [parseInt(date.toLocaleString('en-US',
      {timeZone: 'America/Los_Angeles', hour: 'numeric', hour12: false}))] *)
Definition pacificHourOf (hc : HourCycle) (t : Z) : Z :=
  let h := HourFromTime (LocalTime losAngeles t) in
  match hc with
  | H23 => h
  | H24 => if h =? 0 then 24 else h
  end.

End JSDate.

Import JSDate.

(** ** The calendar service (src/services/calendar.ts) *)

Module Calendar.

(** The outcome of an awaited promise. *)
Inductive Outcome (A : Type) : Type :=
| Resolved (value : A)
| Threw (message : string).
Arguments Resolved {A} value.
Arguments Threw {A} message.

Definition bind {A B : Type} (m : Outcome A) (k : A -> Outcome B) : Outcome B :=
  match m with
  | Resolved a => k a
  | Threw e => Threw e
  end.

Notation "x <- m ;; k" := (bind m (fun x => k))
  (at level 61, m at next level, right associativity).

Record CalendarEvent : Type := mkEvent {
  event_id : string;
  event_summary : string;
  event_start : Z;
  event_end : Z
}.

Record ScheduleSlot : Type := mkSlot {
  slot_start : Z;
  slot_end : Z;
  slot_available : bool
}.

(** The Google Calendar client, an external collaborator: whether the OAuth
    client holds an access token, the answer of [events.list] (already mapped
    to [CalendarEvent]s) and the answer of [events.insert] (id and link). *)
Record CalendarApi : Type := mkApi {
  hasAccessToken : bool;
  eventsList : Z -> Z -> Outcome (list CalendarEvent);
  eventsInsert : string -> string -> Z -> Z -> Outcome (string * string)
}.

Definition isAuthenticated (api : CalendarApi) : bool := hasAccessToken api.

(** [getEvents] rethrows what the client throws. *)
Definition getEvents (api : CalendarApi) (timeMin timeMax : Z)
  : Outcome (list CalendarEvent) :=
  eventsList api timeMin timeMax.

Definition createEvent (api : CalendarApi) (title description : string)
  (startTime endTime : Z) : Outcome (string * string) :=
  eventsInsert api title description startTime endTime.

Definition schedulingWindowStart : Z := 5.
Definition schedulingWindowEnd : Z := 24.
Definition maxSlotsToCheck : Z := 500.

(** The local variables of [findAvailableSlots] that the loop updates.  Each
    pushed slot holds fresh copies of the cursor and of [slotEnd], so later
    updates of [currentDate] do not reach the slots already collected. *)
Record LoopState : Type := mkState {
  currentDate : Z;
  slotsChecked : Z;
  availableSlots : list ScheduleSlot
}.

Section FindAvailableSlots.

Variable tz : TimeZone.
Variable hc : HourCycle.

(** "Start from the provided start date, rounded to next 30-min slot" *)
Definition initialCursor (startDate : Z) : Z :=
  let minutes := getMinutes tz startDate in
  let roundedMinutes := ceilDiv minutes 30 * 30 in
  if roundedMinutes >=? 60
  then setHours4 tz startDate (getHours tz startDate + 1) 0 0 0
  else setMinutes3 tz startDate roundedMinutes 0 0.

Definition conflictsWith (cur slotEnd : Z) (event : CalendarEvent) : bool :=
  (cur <? event_end event) && (slotEnd >? event_start event).

Definition hasConflict (events : list CalendarEvent) (cur slotEnd : Z) : bool :=
  existsb (conflictsWith cur slotEnd) events.

Definition isWithinSchedulingWindow (cur slotEnd : Z) : bool :=
  (pacificHourOf hc cur >=? schedulingWindowStart)
  && (pacificHourOf hc slotEnd <=? schedulingWindowEnd).

(** "Move to next slot (30 min intervals)" *)
Definition stepCursor (cur : Z) : Z := setMinutes tz cur (getMinutes tz cur + 30).

(** "If past midnight (24) or before 5 AM, skip to 5 AM same/next day" *)
Definition fastForward (cur : Z) : Z :=
  let currentPacificHour := pacificHourOf hc cur in
  if (currentPacificHour >=? schedulingWindowEnd)
     || (currentPacificHour <? schedulingWindowStart)
  then
    let hoursToAdd :=
      if currentPacificHour >=? schedulingWindowEnd
      then (24 - currentPacificHour) + schedulingWindowStart
      else schedulingWindowStart - currentPacificHour in
    setHours4 tz cur (getHours tz cur + hoursToAdd) 0 0 0
  else cur.

Variable events : list CalendarEvent.
Variable durationMinutes : Z.
Variable endDate : Z.

Definition loopGuard (st : LoopState) : bool :=
  (currentDate st <? endDate) && (slotsChecked st <? maxSlotsToCheck).

Definition loopBody (st : LoopState) : LoopState :=
  let cur := currentDate st in
  let slotEnd := getTime cur + durationMinutes * 60 * 1000 in
  let slots :=
    if isWithinSchedulingWindow cur slotEnd
    then if negb (hasConflict events cur slotEnd)
         then availableSlots st ++ [mkSlot cur slotEnd true]
         else availableSlots st
    else availableSlots st in
  mkState (fastForward (stepCursor cur)) (slotsChecked st + 1) slots.

(** At most [n] rounds of [while (guard) body]. *)
Fixpoint iterate (n : nat) (st : LoopState) : LoopState :=
  match n with
  | O => st
  | S n' => if loopGuard st then iterate n' (loopBody st) else st
  end.

(** The while loop.  The guard itself bounds the rounds left by
    [maxSlotsToCheck - slotsChecked]; [whileLoop_unfold] below shows that this
    many rounds run the loop to its exit. *)
Definition whileLoop (st : LoopState) : LoopState :=
  iterate (Z.to_nat (maxSlotsToCheck - slotsChecked st)) st.

Definition searchSlots (startDate : Z) : LoopState :=
  whileLoop (mkState (initialCursor startDate) 0 []).

End FindAvailableSlots.

(** The invariant behind the order of the result: the cursor is canonical,
    the starts collected so far ascend strictly and lie before the cursor. *)
Definition ascending (tz : TimeZone) (st : LoopState) : Prop :=
  canonical tz (currentDate st)
  /\ StronglySorted Z.lt (map slot_start (availableSlots st))
  /\ Forall (fun y => y < currentDate st) (map slot_start (availableSlots st)).

(** [findAvailableSlots(durationMinutes, startDate, endDate)]; its callers
    pass all three arguments, so the defaults of the last two play no part. *)
Definition findAvailableSlots (tz : TimeZone) (hc : HourCycle) (api : CalendarApi)
  (durationMinutes startDate endDate : Z) : Outcome (list ScheduleSlot) :=
  events <- getEvents api startDate endDate ;;
  Resolved (availableSlots
              (searchSlots tz hc events durationMinutes endDate startDate)).

End Calendar.

Import Calendar.

(** ** The scheduling agent and its callers *)

Module Agent.

Inductive Priority : Type := low | medium | high.

Record TaskData : Type := mkTask {
  title : string;
  description : option string;
  priority : Priority;
  deadline : option Z;
  preferredStartDate : option Z;
  estimatedDuration : option Z
}.

Record TaskResult : Type := mkResult {
  message : string;
  eventId : string;
  eventLink : string
}.

(** What the flow reads from its surroundings: the host zone and hour cycle of
    the runtime, the calendar client, the clock reading of [new Date()] and the
    text [startTime.toLocaleString('en-US', {weekday: 'short', ...})]. *)
Record Runtime : Type := mkRuntime {
  hostZone : TimeZone;
  hourCycle : HourCycle;
  calendar : CalendarApi;
  now : Z;
  formatScheduledTime : Z -> string
}.

Definition newline : string := String (Ascii.ascii_of_nat 10) EmptyString.
Definition quote : string := String (Ascii.ascii_of_nat 34) EmptyString.

Definition showNumber (n : Z) : string := NilZero.string_of_int (Z.to_int n).

(** [taskData.estimatedDuration || 60] *)
Definition durationOf (taskData : TaskData) : Z :=
  match estimatedDuration taskData with
  | Some d => if d =? 0 then 60 else d
  | None => 60
  end.

(** [taskData.description || ''] *)
Definition descriptionOf (taskData : TaskData) : string :=
  match description taskData with
  | Some d => d
  | None => EmptyString
  end.

(** "Start searching from now (or preferred start if in the future)" *)
Definition searchStartDate (now : Z) (taskData : TaskData) : Z :=
  match preferredStartDate taskData with
  | Some p => if p >? now then p else now
  | None => now
  end.

(** "Search window should be at least 7 days to ensure we find slots";
    "If deadline is provided and further out, use that instead" *)
Definition searchEndDate (now : Z) (taskData : TaskData) : Z :=
  let minSearchWindow :=
    getTime (searchStartDate now taskData) + 7 * 24 * 60 * 60 * 1000 in
  match deadline taskData with
  | Some d => if d >? minSearchWindow then d else minSearchWindow
  | None => minSearchWindow
  end.

Definition notAuthenticated : string := "Calendar not authenticated".
Definition noSlotsFound : string :=
  "No available time slots found in the specified time range".

Definition createAndScheduleTask (rt : Runtime) (taskData : TaskData)
  : Outcome TaskResult :=
  if negb (isAuthenticated (calendar rt)) then Threw notAuthenticated
  else
    let duration := durationOf taskData in
    let searchStart := searchStartDate (now rt) taskData in
    let searchEnd := searchEndDate (now rt) taskData in
    availableSlots <-
      findAvailableSlots (hostZone rt) (hourCycle rt) (calendar rt)
        duration searchStart searchEnd ;;
    match availableSlots with
    | [] => Threw noSlotsFound
    | selectedSlot :: _ =>
        let startTime := slot_start selectedSlot in
        let endTime := slot_end selectedSlot in
        eventResult <-
          createEvent (calendar rt) (title taskData) (descriptionOf taskData)
            startTime endTime ;;
        let scheduledTime := formatScheduledTime rt startTime in
        Resolved
          (mkResult
             ("Task " ++ quote ++ title taskData ++ quote ++ " scheduled for "
              ++ scheduledTime
              ++ " (" ++ showNumber duration ++ " minutes)" ++ newline ++ newline
              ++ "View event: " ++ snd eventResult)
             (fst eventResult) (snd eventResult))
    end.

Definition genericFailure : string :=
  "Sorry, I encountered an error saving the task. Please try again.".

(** [processMessage], from the point where the assistant's message carries a
    [SCHEDULE_TASK:] command with parsed task data: [stripped] is the message
    with the command removed and trimmed. *)
Definition replyAfterScheduling (stripped : string) (result : Outcome TaskResult)
  : string :=
  match result with
  | Resolved r =>
      (if (String.length stripped =? 0)%nat then stripped
       else stripped ++ newline ++ newline)
      ++ "‚úÖ " ++ message r
  | Threw _ =>
      stripped ++ newline ++ newline ++ "‚ùå " ++ genericFailure
  end.

Definition processScheduleCommand (rt : Runtime) (stripped : string)
  (taskData : TaskData) : string :=
  replyAfterScheduling stripped (createAndScheduleTask rt taskData).

(** [POST /tasks] (src/routes/api.ts): the status and, on failure, the error
    text of the JSON body. *)
Inductive HttpResponse : Type :=
| Ok200 (body : TaskResult)
| Error500 (error : string).

Definition postTasks (rt : Runtime) (taskData : TaskData) : HttpResponse :=
  match createAndScheduleTask rt taskData with
  | Resolved r => Ok200 r
  | Threw _ => Error500 "Failed to create task"
  end.

End Agent.

Import Agent.

(** The test [!hasConflict] of the loop, as a predicate on slots. *)
Definition isFree (events : list CalendarEvent) (slot : ScheduleSlot) : bool :=
  negb (hasConflict events (slot_start slot) (slot_end slot)).

(** ** The chat side of the agent: [processMessage], [clearHistory] *)

Module JSString.

Definition commandTag : string := "SCHEDULE_TASK:".

(** [s.includes(p)] *)
Fixpoint includes (p s : string) : bool :=
  prefix p s
  || match s with
     | EmptyString => false
     | String _ rest => includes p rest
     end.

Fixpoint dropChars (n : nat) (s : string) : string :=
  match n, s with
  | O, _ => s
  | S n', String _ rest => dropChars n' rest
  | S _, EmptyString => EmptyString
  end.

Definition LF : Ascii.ascii := Ascii.ascii_of_nat 10.
Definition CR : Ascii.ascii := Ascii.ascii_of_nat 13.
Definition closingBrace : Ascii.ascii := Ascii.ascii_of_nat 125.

(** U+2028 and U+2029 in UTF-8. *)
Definition lineSeparator : string :=
  String (Ascii.ascii_of_nat 226)
    (String (Ascii.ascii_of_nat 128) (String (Ascii.ascii_of_nat 168) EmptyString)).
Definition paragraphSeparator : string :=
  String (Ascii.ascii_of_nat 226)
    (String (Ascii.ascii_of_nat 128) (String (Ascii.ascii_of_nat 169) EmptyString)).

(** Whether [s] starts with a character that [.] does not match. *)
Definition lineTerminatorAt (s : string) : bool :=
  match s with
  | EmptyString => false
  | String c _ =>
      Ascii.eqb c LF || Ascii.eqb c CR
      || prefix lineSeparator s || prefix paragraphSeparator s
  end.

(** [.*?\}] from the start of [s]: the shortest run of characters other than
    line terminators that is followed by a closing brace; the run and what
    follows the brace. *)
Fixpoint lazyUntilBrace (s : string) : option (string * string) :=
  match s with
  | EmptyString => None
  | String c rest =>
      if Ascii.eqb c closingBrace then Some (EmptyString, rest)
      else if lineTerminatorAt s then None
      else match lazyUntilBrace rest with
           | Some (body, post) => Some (String c body, post)
           | None => None
           end
  end.

(** [/SCHEDULE_TASK:(\{.*?\})/] anchored at the start of [s]: the captured
    group and what follows the match. *)
Definition matchAt (s : string) : option (string * string) :=
  if prefix (commandTag ++ "{") s
  then match lazyUntilBrace (dropChars (String.length (commandTag ++ "{")) s) with
       | Some (body, post) => Some (("{" ++ body ++ "}")%string, post)
       | None => None
       end
  else None.

(** [s.match(/SCHEDULE_TASK:(\{.*?\})/)]: the leftmost match, as what precedes
    it, its captured group and what follows it. *)
Fixpoint matchCommand (s : string) : option (string * string * string) :=
  match matchAt s with
  | Some (capture, post) => Some (EmptyString, capture, post)
  | None =>
      match s with
      | EmptyString => None
      | String c rest =>
          match matchCommand rest with
          | Some (pre, capture, post) => Some (String c pre, capture, post)
          | None => None
          end
      end
  end.

(** [s.replace(/SCHEDULE_TASK:\{.*?\}/, '')] *)
Definition removeCommand (s : string) : string :=
  match matchCommand s with
  | Some (pre, _, post) => (pre ++ post)%string
  | None => s
  end.

End JSString.

Import JSString.

Module Chat.

Inductive BaseMessage : Type :=
| SystemMessage (text : string)
| HumanMessage (text : string)
| AIMessage (text : string).

Definition messageText (m : BaseMessage) : string :=
  match m with
  | SystemMessage t | HumanMessage t | AIMessage t => t
  end.

Inductive Role : Type := user | assistant.

Record ChatMessage : Type := mkChat {
  role : Role;
  content : string;
  timestamp : Z
}.

(** [response.response_metadata.tokenUsage]; a missing count is [None]. *)
Record TokenUsage : Type := mkUsage {
  promptTokens : option Z;
  completionTokens : option Z;
  usageTotalTokens : option Z
}.

Record LlmResponse : Type := mkResponse {
  response_content : string;
  response_tokenUsage : option TokenUsage
}.

Record TokenUsageStats : Type := mkStats {
  totalPromptTokens : Z;
  totalCompletionTokens : Z;
  totalTokens : Z;
  requestCount : Z
}.

Record AgentState : Type := mkAgent {
  conversationHistory : list BaseMessage;
  chatHistory : list ChatMessage;
  tokenUsageStats : TokenUsageStats
}.

(** What [processMessage] takes from outside the repository: the language
    model, [JSON.parse] followed by the conversion of the two date strings,
    and [String.prototype.trim]. *)
Record Engine : Type := mkEngine {
  llmInvoke : list BaseMessage -> Outcome LlmResponse;
  jsonParseTask : string -> Outcome TaskData;
  trim : string -> string
}.

(** The conversation entry pushed together with a chat entry. *)
Definition asBaseMessage (entry : ChatMessage) : BaseMessage :=
  match role entry with
  | user => HumanMessage (content entry)
  | assistant => AIMessage (content entry)
  end.

(** The state the constructor leaves. *)
Definition newAgent (systemPrompt : string) : AgentState :=
  mkAgent [SystemMessage systemPrompt] [] (mkStats 0 0 0 0).

(** [count || 0] *)
Definition orZero (count : option Z) : Z :=
  match count with
  | Some n => n
  | None => 0
  end.

Definition trackUsage (stats : TokenUsageStats) (response : LlmResponse)
  : TokenUsageStats :=
  match response_tokenUsage response with
  | Some usage =>
      mkStats (totalPromptTokens stats + orZero (promptTokens usage))
              (totalCompletionTokens stats + orZero (completionTokens usage))
              (totalTokens stats + orZero (usageTotalTokens usage))
              (requestCount stats + 1)
  | None => stats
  end.

(** "Check if the assistant wants to schedule a task": the assistant's
    message after the command, if any, has been carried out. *)
Definition scheduleFromReply (engine : Engine) (rt : Runtime)
  (assistantMessage : string) : string :=
  if includes commandTag assistantMessage
  then match matchCommand assistantMessage with
       | Some (_, capture, _) =>
           replyAfterScheduling (trim engine (removeCommand assistantMessage))
             (taskData <- jsonParseTask engine capture ;;
              createAndScheduleTask rt taskData)
       | None => assistantMessage
       end
  else assistantMessage.

(** [processMessage(userMessage)]; [sentAt] and [repliedAt] are the clock
    readings stored with the two chat entries. *)
Definition processMessage (engine : Engine) (rt : Runtime) (sentAt repliedAt : Z)
  (st : AgentState) (userMessage : string) : AgentState * Outcome string :=
  let conversation := conversationHistory st ++ [HumanMessage userMessage] in
  let chat := chatHistory st ++ [mkChat user userMessage sentAt] in
  match llmInvoke engine conversation with
  | Threw e => (mkAgent conversation chat (tokenUsageStats st), Threw e)
  | Resolved response =>
      let stats := trackUsage (tokenUsageStats st) response in
      let assistantMessage :=
        scheduleFromReply engine rt (response_content response) in
      (mkAgent (conversation ++ [AIMessage assistantMessage])
               (chat ++ [mkChat assistant assistantMessage repliedAt]) stats,
       Resolved assistantMessage)
  end.

(** "Keep system message, clear the rest" *)
Definition clearHistory (st : AgentState) : AgentState :=
  let systemMessage := hd_error (conversationHistory st) in
  mkAgent (match systemMessage with
           | Some m => [m]
           | None => []
           end)
          [] (tokenUsageStats st).

Definition getHistory (st : AgentState) : list ChatMessage := chatHistory st.

(** [POST /chat] and [DELETE /chat/history] (src/routes/api.ts). *)
Inductive ChatResponse : Type :=
| ChatOk (response : string)
| ChatError (status : Z) (error : string).

Definition postChat (engine : Engine) (rt : Runtime) (sentAt repliedAt : Z)
  (st : AgentState) (message : option string) : AgentState * ChatResponse :=
  match message with
  | None => (st, ChatError 400 "Message is required")
  | Some m =>
      if (String.length m =? 0)%nat then (st, ChatError 400 "Message is required")
      else match processMessage engine rt sentAt repliedAt st m with
           | (st', Resolved response) => (st', ChatOk response)
           | (st', Threw _) => (st', ChatError 500 "Failed to process message")
           end
  end.

(** The requests that change the agent's state, and a session of them. *)
Inductive Request : Type :=
| PostChat (rt : Runtime) (sentAt repliedAt : Z) (message : option string)
| DeleteHistory.

Definition handle (engine : Engine) (st : AgentState) (request : Request)
  : AgentState :=
  match request with
  | PostChat rt sentAt repliedAt message =>
      fst (postChat engine rt sentAt repliedAt st message)
  | DeleteHistory => clearHistory st
  end.

Definition session (engine : Engine) (st : AgentState) (requests : list Request)
  : AgentState :=
  fold_left (handle engine) requests st.

End Chat.

Import Chat.

(** ** Start-up (src/server.ts)

    Ports and numbers of attempts are integers on which the arithmetic and the
    printing of JavaScript numbers are exact (safe integers, of magnitude
    below 2^53). *)

Module Server.

Definition MAX_PORT_ATTEMPTS : Z := 10.

(** [Number.isSafeInteger(n)] for an integer [n]. *)
Definition safeInteger (n : Z) : Prop := - 2 ^ 53 < n < 2 ^ 53.

(** The rounds of [for (let i = 0; i < maxAttempts; i++)] that are left, from
    the port [startPort + i] on.  [isPortAvailable] is the outcome of the probe
    of a port: the promise resolves with true or false, or rejects with what
    [createConnection] throws (for a port outside 0..65535). *)
Fixpoint tryPorts (isPortAvailable : Z -> Outcome bool) (port : Z) (attempts : nat)
  : Outcome (option Z) :=
  match attempts with
  | O => Resolved None
  | S attempts' =>
      available <- isPortAvailable port ;;
      if available then Resolved (Some port)
      else tryPorts isPortAvailable (port + 1) attempts'
  end.

Definition noPortMessage (startPort maxAttempts : Z) : string :=
  "Could not find an available port after " ++ showNumber maxAttempts
  ++ " attempts (tried " ++ showNumber startPort ++ "-"
  ++ showNumber (startPort + maxAttempts - 1) ++ ")".

Definition findAvailablePort (isPortAvailable : Z -> Outcome bool)
  (startPort maxAttempts : Z) : Outcome Z :=
  found <- tryPorts isPortAvailable startPort (Z.to_nat maxAttempts) ;;
  match found with
  | Some port => Resolved port
  | None => Threw (noPortMessage startPort maxAttempts)
  end.

End Server.

Import Server.

(** ** Concrete calendars and dates used by the examples *)

Module Scenario.

Definition minutesMs (n : Z) : Z := n * msPerMinute.
Definition hoursMs (n : Z) : Z := n * msPerHour.

(** 2025-01-06T00:00:00Z, which is 2025-01-05 16:00 in Los Angeles (PST). *)
Definition jan6 : Z := 1736121600000.

(** 2025-03-09T00:00:00Z; daylight time starts in Los Angeles on that day,
    at 10:00Z. *)
Definition mar9 : Z := 1741478400000.

(** 2025-11-02T00:00:00Z; daylight time ends in Los Angeles on that day,
    at 09:00Z. *)
Definition nov2 : Z := 1762041600000.

(** A client that holds a token, lists [events] whatever the range, and
    accepts every insertion. *)
Definition calendarWith (events : list CalendarEvent) : CalendarApi :=
  mkApi true
    (fun _ _ => Resolved events)
    (fun _ _ _ _ => Resolved ("event-1"%string, "https://calendar.example/1"%string)).

Definition busy (startTime endTime : Z) : CalendarEvent :=
  mkEvent "busy-1" "Busy" startTime endTime.

(** A meeting on 2025-01-06 from 09:00 to 10:00 in Los Angeles. *)
Definition meeting : CalendarEvent :=
  busy (jan6 + hoursMs 17) (jan6 + hoursMs 18).

(** A commitment that covers two months around [jan6]. *)
Definition booked : CalendarEvent :=
  busy (jan6 - hoursMs 720) (jan6 + hoursMs 720).

(** Busy from 15:00 to 18:00 in Los Angeles on 2025-01-05. *)
Definition afternoon : CalendarEvent :=
  busy (jan6 - hoursMs 1) (jan6 + hoursMs 2).

Definition runtimeAt (api : CalendarApi) : Runtime :=
  mkRuntime utcZone H23 api jan6 (fun _ => "Mon, Jan 6, 2:00 AM"%string).

Definition signedOut : CalendarApi :=
  mkApi false (fun _ _ => Resolved []) (fun _ _ _ _ => Threw "unauthorized").

Definition report : TaskData :=
  mkTask "Write report" None medium None None (Some 60).

(** The same task, due at 17:00 in Los Angeles on 2025-01-05. *)
Definition urgentReport : TaskData :=
  mkTask "Write report" None high (Some (jan6 + hoursMs 1)) None (Some 60).

(** A model that answers every message with a command for [report], without
    usage metadata, and the parser that reads that command. *)
Definition commandReply : string :=
  "Got it! SCHEDULE_TASK:{report} I have scheduled it.".

Definition scriptedEngine : Engine :=
  mkEngine (fun _ => Resolved (mkResponse commandReply None))
           (fun _ => Resolved report)
           (fun text => text).

(** A model that is out of reach. *)
Definition offlineEngine : Engine :=
  mkEngine (fun _ => Threw "ECONNREFUSED") (fun _ => Threw "unused") (fun text => text).

(** Ports 3000, 3001 and 65535 are taken; there is no port outside
    0..65535. *)
Definition portFree (port : Z) : Outcome bool :=
  if (port <? 0) || (65535 <? port) then Threw "ERR_SOCKET_BAD_PORT"
  else Resolved (negb ((port =? 3000) || (port =? 3001) || (port =? 65535))).

(** A client like [calendarWith] whose answer to an insertion shows the
    interval it was asked to book: the start as the id, the end as the
    link. *)
Definition recordingCalendar (events : list CalendarEvent) : CalendarApi :=
  mkApi true
    (fun _ _ => Resolved events)
    (fun _ _ startTime endTime => Resolved (showNumber startTime, showNumber endTime)).

End Scenario.

Import Scenario.

(** * Properties *)

(** ** Arithmetic of time values *)

Module JSDateFacts.

Lemma HourFromTime_range (t : Z) : 0 <= HourFromTime t < 24.
Proof. unfold HourFromTime. apply Z.mod_pos_bound. lia. Qed.

Lemma MinFromTime_range (t : Z) : 0 <= MinFromTime t < 60.
Proof. unfold MinFromTime. apply Z.mod_pos_bound. lia. Qed.

(** A time value is the sum of its day, hour, minute, second and millisecond
    fields. *)
Lemma fields_sum (t : Z) :
  MakeDate (Day t)
    (MakeTime (HourFromTime t) (MinFromTime t) (SecFromTime t) (msFromTime t)) = t.
Proof.
  unfold MakeDate, MakeTime, Day, HourFromTime, MinFromTime, SecFromTime,
    msFromTime, msPerDay, msPerHour, msPerMinute, msPerSecond.
  Z.div_mod_to_equations. lia.
Qed.

Lemma MakeDate_minutes_shift (t k : Z) :
  MakeDate (Day t)
    (MakeTime (HourFromTime t) (MinFromTime t + k) (SecFromTime t) (msFromTime t))
  = t + k * msPerMinute.
Proof.
  pose proof (fields_sum t) as H. unfold MakeDate, MakeTime in *. lia.
Qed.

Lemma MakeDate_hour_start (t k : Z) :
  MakeDate (Day t) (MakeTime (HourFromTime t + k) 0 0 0)
  = t - t mod msPerHour + k * msPerHour.
Proof.
  unfold MakeDate, MakeTime, Day, HourFromTime, msPerDay, msPerHour,
    msPerMinute, msPerSecond.
  Z.div_mod_to_equations. lia.
Qed.

Lemma pacificHourOf_range (hc : HourCycle) (t : Z) : 0 <= pacificHourOf hc t <= 24.
Proof.
  unfold pacificHourOf.
  pose proof (HourFromTime_range (LocalTime losAngeles t)) as H.
  destruct hc; cbv zeta; [lia|].
  destruct (HourFromTime (LocalTime losAngeles t) =? 0); lia.
Qed.

Lemma fixedZone_forward (offsetMs : Z) : ForwardZone (fixedZone offsetMs).
Proof.
  split; unfold canonical, UTC, LocalTime, fixedZone; cbn [tzaOfUTC tzaOfLocal];
    intros; lia.
Qed.

End JSDateFacts.

(** ** The Los Angeles zone goes forward *)

Module ZoneFacts.

Lemma YearFromDay_bracket d :
  DayFromYear (YearFromDay d) <= d < DayFromYear (YearFromDay d + 1).
Proof.
  unfold DayFromYear, YearFromDay. cbv zeta.
  match goal with |- context [if ?c then _ else _] => destruct c eqn:E end;
    [apply Z.ltb_lt in E|apply Z.ltb_ge in E];
    Z.div_mod_to_equations; lia.
Qed.

Lemma DayFromYear_next y : 365 <= DayFromYear (y + 1) - DayFromYear y <= 366.
Proof. unfold DayFromYear. Z.div_mod_to_equations. lia. Qed.

Lemma DayFromYear_mono y1 y2 : y1 <= y2 -> DayFromYear y1 <= DayFromYear y2.
Proof. unfold DayFromYear. Z.div_mod_to_equations. lia. Qed.

Lemma YearFromDay_unique y d :
  DayFromYear y <= d < DayFromYear (y + 1) -> YearFromDay d = y.
Proof.
  intros H. pose proof (YearFromDay_bracket d) as B.
  destruct (Z.lt_trichotomy (YearFromDay d) y) as [Hlt | [Heq | Hgt]]; [|exact Heq|].
  - pose proof (DayFromYear_mono (YearFromDay d + 1) y ltac:(lia)). lia.
  - pose proof (DayFromYear_mono (y + 1) (YearFromDay d) ltac:(lia)). lia.
Qed.

Lemma YearFromTime_bracket t :
  TimeFromYear (YearFromTime t) <= t < TimeFromYear (YearFromTime t + 1).
Proof.
  unfold TimeFromYear, YearFromTime. pose proof (YearFromDay_bracket (Day t)) as B.
  revert B. generalize (DayFromYear (YearFromDay (Day t))).
  generalize (DayFromYear (YearFromDay (Day t) + 1)).
  unfold Day, msPerDay. intros a b B. Z.div_mod_to_equations. lia.
Qed.

Lemma YearFromTime_unique y t :
  TimeFromYear y <= t < TimeFromYear (y + 1) -> YearFromTime t = y.
Proof.
  unfold TimeFromYear, YearFromTime. intros H. apply YearFromDay_unique.
  revert H. generalize (DayFromYear y). generalize (DayFromYear (y + 1)).
  unfold Day, msPerDay. intros a b B. Z.div_mod_to_equations. lia.
Qed.

Lemma TimeFromYear_next y : TimeFromYear y + 365 * msPerDay <= TimeFromYear (y + 1).
Proof. unfold TimeFromYear, msPerDay. pose proof (DayFromYear_next y). lia. Qed.

(** Daylight time starts between March 8 and March 14 and ends between
    November 1 and November 7. *)
Lemma dst_days y :
  TimeFromYear y + 66 * msPerDay <= dstStartDay y * msPerDay
    <= TimeFromYear y + 73 * msPerDay
  /\ TimeFromYear y + 304 * msPerDay <= dstEndDay y * msPerDay
       <= TimeFromYear y + 311 * msPerDay.
Proof.
  unfold TimeFromYear, dstStartDay, dstEndDay, firstSundayOnOrAfter, WeekDay,
    InLeapYear, DaysInYear, msPerDay.
  generalize (DayFromYear y). intros D.
  destruct (y mod 4 =? 0), (y mod 100 =? 0), (y mod 400 =? 0); cbn [negb];
    Z.div_mod_to_equations; lia.
Qed.

Lemma laOffsetAt_cases t :
  let y := YearFromTime t in
  (laOffsetAt t = pdtOffset
   /\ dstStartDay y * msPerDay + 10 * msPerHour <= t
      < dstEndDay y * msPerDay + 9 * msPerHour)
  \/ (laOffsetAt t = pstOffset
      /\ (t < dstStartDay y * msPerDay + 10 * msPerHour
          \/ dstEndDay y * msPerDay + 9 * msPerHour <= t)).
Proof.
  unfold laOffsetAt. cbv zeta.
  destruct (Z.leb_spec (dstStartDay (YearFromTime t) * msPerDay + 10 * msPerHour) t);
    destruct (Z.ltb_spec t (dstEndDay (YearFromTime t) * msPerDay + 9 * msPerHour));
    cbn [andb]; [left|right|right|right]; (split; [reflexivity|lia]).
Qed.

Lemma laOffsetOfLocal_cases t :
  let y := YearFromTime t in
  (laOffsetOfLocal t = pdtOffset
   /\ dstStartDay y * msPerDay + 3 * msPerHour <= t
      < dstEndDay y * msPerDay + 2 * msPerHour)
  \/ (laOffsetOfLocal t = pstOffset
      /\ (t < dstStartDay y * msPerDay + 3 * msPerHour
          \/ dstEndDay y * msPerDay + 2 * msPerHour <= t)).
Proof.
  unfold laOffsetOfLocal. cbv zeta.
  destruct (Z.leb_spec (dstStartDay (YearFromTime t) * msPerDay + 3 * msPerHour) t);
    destruct (Z.ltb_spec t (dstEndDay (YearFromTime t) * msPerDay + 2 * msPerHour));
    cbn [andb]; [left|right|right|right]; (split; [reflexivity|lia]).
Qed.

(** The year of [t], as linear facts. *)
Ltac year_facts t :=
  pose proof (YearFromTime_bracket t);
  pose proof (dst_days (YearFromTime t));
  pose proof (TimeFromYear_next (YearFromTime t)).

Ltac same_year E t' t :=
  assert (E : YearFromTime t' = YearFromTime t)
    by (apply YearFromTime_unique;
        unfold pdtOffset, pstOffset, msPerHour, msPerDay in *; lia).

Lemma losAngeles_utc_canonical tlocal : canonical losAngeles (UTC losAngeles tlocal).
Proof.
  unfold canonical, UTC, LocalTime. cbn [tzaOfUTC tzaOfLocal losAngeles].
  set (t := tlocal - laOffsetOfLocal tlocal).
  enough (laOffsetOfLocal (t + laOffsetAt t) = laOffsetAt t) by lia.
  year_facts tlocal.
  destruct (laOffsetOfLocal_cases tlocal) as [[El Hl] | [El Hl]].
  - (* the wall-clock value reads as daylight time *)
    assert (Et : t = tlocal + 7 * msPerHour)
      by (subst t; rewrite El; unfold pdtOffset; lia).
    same_year Ey t tlocal.
    destruct (laOffsetAt_cases t) as [[Eu Hu] | [Eu Hu]]; rewrite Ey in Hu.
    + rewrite Eu. replace (t + pdtOffset) with tlocal by (unfold pdtOffset; lia).
      exact El.
    + exfalso. unfold msPerHour in *. lia.
  - (* it reads as standard time *)
    assert (Et : t = tlocal + 8 * msPerHour)
      by (subst t; rewrite El; unfold pstOffset; lia).
    destruct (laOffsetAt_cases t) as [[Eu Hu] | [Eu Hu]]; rewrite Eu.
    + year_facts t.
      same_year Ey (t + pdtOffset) t.
      destruct (laOffsetOfLocal_cases (t + pdtOffset)) as [[Ew Hw] | [Ew Hw]];
        [exact Ew|].
      exfalso. rewrite Ey in Hw. unfold pdtOffset, msPerHour in *. lia.
    + replace (t + pstOffset) with tlocal by (unfold pstOffset; lia). exact El.
Qed.

Lemma losAngeles_local_forward t d :
  canonical losAngeles t -> 0 < d ->
  t < UTC losAngeles (LocalTime losAngeles t + d).
Proof.
  unfold canonical, UTC, LocalTime. cbn [tzaOfUTC tzaOfLocal losAngeles].
  intros Hcan Hd.
  destruct (laOffsetOfLocal_cases (t + laOffsetAt t + d)) as [[Ew Hw] | [Ew Hw]];
    rewrite Ew;
    destruct (laOffsetAt_cases t) as [[Eu Hu] | [Eu Hu]]; rewrite Eu in *;
    unfold pdtOffset, pstOffset in *;
    try (unfold msPerHour in *; lia).
  (* standard time at [t], daylight reading of the later wall-clock value *)
  assert (El : laOffsetOfLocal (t + -8 * msPerHour) = -8 * msPerHour) by lia.
  destruct (Z.le_gt_cases d msPerHour) as [Hle|Hgt];
    [exfalso|unfold msPerHour in *; lia].
  set (L := t + -8 * msPerHour) in *. set (L' := L + d) in *.
  year_facts L'.
  same_year Ey L L'.
  destruct (laOffsetOfLocal_cases L) as [[Ev Hv] | [Ev Hv]];
    [unfold pdtOffset in Ev; unfold msPerHour in *; lia|].
  rewrite Ey in Hv.
  same_year Ey' t L'.
  rewrite Ey' in Hu. unfold msPerHour, msPerDay in *. lia.
Qed.

(** Reading ambiguous and skipped wall-clock values as ECMA-262 prescribes,
    the zone with the daylight-saving rule goes forward. *)
Lemma losAngeles_forward : ForwardZone losAngeles.
Proof.
  split; [exact losAngeles_utc_canonical|exact losAngeles_local_forward].
Qed.

End ZoneFacts.

(** ** The enumeration loop *)

Module LoopFacts.

Section Loop.

Variable tz : TimeZone.
Variable hc : HourCycle.
Variable events : list CalendarEvent.
Variable durationMinutes : Z.
Variable endDate : Z.

Notation guard := (loopGuard endDate).
Notation body := (loopBody tz hc events durationMinutes).
Notation iter := (iterate tz hc events durationMinutes endDate).
Notation while := (whileLoop tz hc events durationMinutes endDate).

Lemma guard_true (st : LoopState) :
  guard st = true ->
  currentDate st < endDate /\ slotsChecked st < maxSlotsToCheck.
Proof.
  unfold loopGuard. rewrite andb_true_iff, !Z.ltb_lt. tauto.
Qed.

Lemma iterate_stuck (n : nat) (st : LoopState) :
  guard st = false -> iter n st = st.
Proof. intros H. destruct n; simpl; [|rewrite H]; reflexivity. Qed.

(** With as many rounds as the counter leaves, the loop reaches its exit. *)
Lemma iterate_exits (n : nat) :
  forall st, (Z.to_nat (maxSlotsToCheck - slotsChecked st) <= n)%nat ->
             guard (iter n st) = false.
Proof.
  induction n as [|n IH]; intros st Hn; simpl.
  - unfold loopGuard. apply andb_false_iff. right. apply Z.ltb_ge. lia.
  - destruct (guard st) eqn:G; [|exact G].
    apply IH. unfold loopBody. cbn [slotsChecked]. lia.
Qed.

(** [whileLoop] satisfies the equation of [while (guard) body]. *)
Lemma whileLoop_unfold (st : LoopState) :
  while st = if guard st then while (body st) else st.
Proof.
  unfold whileLoop. destruct (guard st) eqn:G.
  - destruct (guard_true _ G) as [_ Hlt].
    replace (Z.to_nat (maxSlotsToCheck - slotsChecked st))
      with (S (Z.to_nat (maxSlotsToCheck - slotsChecked (body st))))
      by (unfold loopBody; cbn [slotsChecked]; lia).
    cbn [iterate]. rewrite G. reflexivity.
  - apply iterate_stuck, G.
Qed.

(** Whatever holds of the state before the loop and is kept by every round
    that the guard admits holds at the end. *)
Lemma iterate_invariant (P : LoopState -> Prop) :
  (forall st, P st -> guard st = true -> P (body st)) ->
  forall n st, P st -> P (iter n st).
Proof.
  intros Hstep. induction n as [|n IH]; intros st HP; simpl; [exact HP|].
  destruct (guard st) eqn:G; [|exact HP].
  apply IH, Hstep; assumption.
Qed.

Lemma whileLoop_invariant (P : LoopState -> Prop) :
  (forall st, P st -> guard st = true -> P (body st)) ->
  forall st, P st -> P (while st).
Proof. intros Hstep st HP. unfold whileLoop. apply iterate_invariant; assumption. Qed.

(** What one round does to the collected slots. *)
Lemma body_slots (st : LoopState) :
  let cur := currentDate st in
  let slotEnd := cur + durationMinutes * 60 * 1000 in
  availableSlots (body st) = availableSlots st
  \/ (availableSlots (body st) = availableSlots st ++ [mkSlot cur slotEnd true]
      /\ isWithinSchedulingWindow hc cur slotEnd = true
      /\ hasConflict events cur slotEnd = false).
Proof.
  cbv zeta. unfold loopBody, getTime. simpl.
  destruct (isWithinSchedulingWindow hc _ _) eqn:W; [|left; reflexivity].
  destruct (hasConflict events _ _) eqn:C; simpl; [left; reflexivity|].
  right. auto.
Qed.

(** Every collected slot satisfies what every pushed slot satisfies. *)
Lemma slots_forall (Q : ScheduleSlot -> Prop) :
  (forall cur,
      let slotEnd := cur + durationMinutes * 60 * 1000 in
      isWithinSchedulingWindow hc cur slotEnd = true ->
      hasConflict events cur slotEnd = false ->
      Q (mkSlot cur slotEnd true)) ->
  forall st, Forall Q (availableSlots st) -> Forall Q (availableSlots (while st)).
Proof.
  intros HQ. apply (whileLoop_invariant (fun st => Forall Q (availableSlots st))).
  intros st HF _.
  destruct (body_slots st) as [E | (E & W & C)]; rewrite E; [exact HF|].
  apply Forall_app. split; [exact HF|].
  constructor; [|constructor]. apply HQ; assumption.
Qed.

End Loop.

End LoopFacts.

(** ** [findAvailableSlots] *)

Module CalendarFacts.

Import LoopFacts.

Lemma findAvailableSlots_resolved tz hc api d s e slots :
  findAvailableSlots tz hc api d s e = Resolved slots ->
  exists events,
    getEvents api s e = Resolved events
    /\ slots = availableSlots (searchSlots tz hc events d e s).
Proof.
  unfold findAvailableSlots, bind.
  destruct (getEvents api s e) as [events|m]; [|discriminate].
  intros H. injection H as <-. exists events. auto.
Qed.

Lemma iterate_rounds tz hc events d e (n : nat) :
  forall st,
  exists k, (k <= n)%nat
    /\ iterate tz hc events d e n st = Nat.iter k (loopBody tz hc events d) st
    /\ forall j, (j < k)%nat ->
                 loopGuard e (Nat.iter j (loopBody tz hc events d) st) = true.
Proof.
  induction n as [|n IH]; intros st.
  - exists 0%nat. repeat split; [lia|]. intros j Hj. lia.
  - cbn [iterate]. destruct (loopGuard e st) eqn:G.
    + destruct (IH (loopBody tz hc events d st)) as (k & Hk & E & Hg).
      exists (S k). split; [lia|]. split.
      * rewrite Nat.iter_succ_r. exact E.
      * intros [|j] Hj; [exact G|]. rewrite Nat.iter_succ_r. apply Hg. lia.
    + exists 0%nat. repeat split; [lia|]. intros j Hj. lia.
Qed.

Lemma rounds_counted tz hc events d (k : nat) (st : LoopState) :
  slotsChecked (Nat.iter k (loopBody tz hc events d) st)
  = slotsChecked st + Z.of_nat k.
Proof.
  induction k as [|k IH]; [simpl; lia|].
  rewrite Nat.iter_succ. unfold loopBody at 1. cbn [slotsChecked]. lia.
Qed.

(** C4. Cap and termination: for every duration, start date, end date and
    answer of the calendar, either the fetch of the events fails and that
    failure is the outcome, or the loop of findAvailableSlots runs its body a
    number of rounds that is at most maxSlotsToCheck = 500 (the guard holds
    before each of these rounds and fails after the last, the counter equals
    the number of rounds) and findAvailableSlots resolves to the slots
    collected by then. *)
Theorem findAvailableSlots_cap_and_termination tz hc api d s e :
  match getEvents api s e with
  | Threw m => findAvailableSlots tz hc api d s e = Threw m
  | Resolved events =>
      let body := loopBody tz hc events d in
      let init := mkState (initialCursor tz s) 0 [] in
      exists rounds : nat,
        (rounds <= 500)%nat
        /\ (forall j, (j < rounds)%nat -> loopGuard e (Nat.iter j body init) = true)
        /\ loopGuard e (Nat.iter rounds body init) = false
        /\ slotsChecked (Nat.iter rounds body init) = Z.of_nat rounds
        /\ findAvailableSlots tz hc api d s e
           = Resolved (availableSlots (Nat.iter rounds body init))
  end.
Proof.
  unfold findAvailableSlots, bind.
  destruct (getEvents api s e) as [events|m]; [|reflexivity].
  cbv zeta. unfold searchSlots, whileLoop. cbn [slotsChecked].
  set (init := mkState (initialCursor tz s) 0 []).
  destruct (iterate_rounds tz hc events d e
              (Z.to_nat (maxSlotsToCheck - 0)) init) as (k & Hk & E & Hg).
  exists k. split; [exact Hk|]. split; [exact Hg|].
  rewrite <- E. split; [|split].
  - apply iterate_exits. subst init. cbn [slotsChecked]. lia.
  - rewrite E, rounds_counted. subst init. cbn [slotsChecked]. lia.
  - reflexivity.
Qed.

Lemma searchSlots_duration tz hc events d e s :
  Forall (fun slot => slot_end slot - slot_start slot = d * 60 * 1000)
    (availableSlots (searchSlots tz hc events d e s)).
Proof.
  unfold searchSlots. apply slots_forall; [|constructor].
  intros cur slotEnd _ _. subst slotEnd. cbn [slot_end slot_start]. lia.
Qed.

(** C10. Exact duration: every slot returned by findAvailableSlots ends
    exactly durationMinutes (in milliseconds: durationMinutes * 60 * 1000)
    after it starts. *)
Theorem findAvailableSlots_exact_duration tz hc api d s e slots :
  findAvailableSlots tz hc api d s e = Resolved slots ->
  forall slot, In slot slots -> slot_end slot - slot_start slot = d * 60 * 1000.
Proof.
  intros H. apply findAvailableSlots_resolved in H.
  destruct H as (events & _ & ->).
  apply Forall_forall, searchSlots_duration.
Qed.

Lemma findAvailableSlots_exact_duration_witness :
  findAvailableSlots utcZone H23 (calendarWith [meeting]) 30
    (jan6 + minutesMs 990) (jan6 + minutesMs 1110)
  = Resolved [mkSlot (jan6 + minutesMs 990) (jan6 + minutesMs 1020) true;
              mkSlot (jan6 + minutesMs 1080) (jan6 + minutesMs 1110) true]
  /\ (jan6 + minutesMs 1110) - (jan6 + minutesMs 1080) = 30 * 60 * 1000.
Proof.
  assert (H : findAvailableSlots utcZone H23 (calendarWith [meeting]) 30
                (jan6 + minutesMs 990) (jan6 + minutesMs 1110)
              = Resolved [mkSlot (jan6 + minutesMs 990) (jan6 + minutesMs 1020) true;
                          mkSlot (jan6 + minutesMs 1080) (jan6 + minutesMs 1110) true])
    by (vm_compute; reflexivity).
  split; [exact H|].
  apply (findAvailableSlots_exact_duration _ _ _ _ _ _ _ H
           (mkSlot (jan6 + minutesMs 1080) (jan6 + minutesMs 1110) true)).
  simpl. auto.
Defined.

Lemma conflictsWith_iff cur slotEnd event :
  conflictsWith cur slotEnd event = true
  <-> cur < event_end event /\ slotEnd > event_start event.
Proof.
  unfold conflictsWith. rewrite andb_true_iff, Z.ltb_lt, Z.gtb_ltb, Z.ltb_lt. lia.
Qed.

Lemma hasConflict_false events cur slotEnd :
  hasConflict events cur slotEnd = false ->
  forall event, In event events ->
    ~ (cur < event_end event /\ slotEnd > event_start event).
Proof.
  unfold hasConflict. intros H event Hin Hc.
  apply conflictsWith_iff in Hc.
  assert (Ht : existsb (conflictsWith cur slotEnd) events = true)
    by (apply existsb_exists; exists event; auto).
  congruence.
Qed.

(** C2. No overlap, with tolerance at the boundaries: no slot returned by
    findAvailableSlots overlaps an event of the fetched set, where a slot and
    an event overlap when slot.start < event.end and slot.end > event.start;
    and an event that ends exactly at a candidate's start, or starts exactly
    at a candidate's end, changes nothing in the round that examines this
    candidate, so it does not exclude the candidate. *)
Theorem findAvailableSlots_no_overlap tz hc api d s e events slots :
  getEvents api s e = Resolved events ->
  findAvailableSlots tz hc api d s e = Resolved slots ->
  (forall slot event, In slot slots -> In event events ->
     ~ (slot_start slot < event_end event /\ slot_end slot > event_start event))
  /\ (forall touching st,
        event_end touching = currentDate st
        \/ event_start touching = currentDate st + d * 60 * 1000 ->
        loopBody tz hc (touching :: events) d st = loopBody tz hc events d st).
Proof.
  intros Hev H. split.
  - apply findAvailableSlots_resolved in H.
    destruct H as (events' & Hev' & ->).
    assert (events' = events) as -> by congruence.
    intros slot event Hs. revert event.
    refine (proj1 (Forall_forall
                     (fun slot => forall event, In event events ->
                        ~ (slot_start slot < event_end event
                           /\ slot_end slot > event_start event)) _) _ slot Hs).
    unfold searchSlots. apply slots_forall; [|constructor].
    intros cur slotEnd _ Hc event Hin. cbn [slot_start slot_end].
    exact (hasConflict_false _ _ _ Hc event Hin).
  - intros touching st Ht. unfold loopBody, getTime.
    replace (hasConflict (touching :: events) (currentDate st)
               (currentDate st + d * 60 * 1000))
      with (hasConflict events (currentDate st) (currentDate st + d * 60 * 1000));
      [reflexivity|].
    unfold hasConflict. cbn [existsb].
    replace (conflictsWith (currentDate st) (currentDate st + d * 60 * 1000) touching)
      with false; [reflexivity|].
    symmetry. apply not_true_is_false. rewrite conflictsWith_iff. lia.
Qed.

Lemma findAvailableSlots_no_overlap_witness :
  ~ (jan6 + minutesMs 1080 < event_end meeting
     /\ jan6 + minutesMs 1110 > event_start meeting)
  /\ loopBody utcZone H23 [meeting; meeting] 30
       (mkState (jan6 + minutesMs 1080) 3 [])
     = loopBody utcZone H23 [meeting] 30 (mkState (jan6 + minutesMs 1080) 3 []).
Proof.
  pose proof (findAvailableSlots_no_overlap utcZone H23 (calendarWith [meeting]) 30
                (jan6 + minutesMs 990) (jan6 + minutesMs 1110) [meeting]
                [mkSlot (jan6 + minutesMs 990) (jan6 + minutesMs 1020) true;
                 mkSlot (jan6 + minutesMs 1080) (jan6 + minutesMs 1110) true]
                eq_refl ltac:(vm_compute; reflexivity)) as [H1 H2].
  split.
  - apply (H1 (mkSlot (jan6 + minutesMs 1080) (jan6 + minutesMs 1110) true) meeting);
      simpl; auto.
  - apply (H2 meeting (mkState (jan6 + minutesMs 1080) 3 [])).
    left. vm_compute. reflexivity.
Defined.

(** X6. What the window test guarantees: the hour read at the start of a
    returned slot is at least 5 and the hour read at its end is at most 24
    (the latter holds of every instant). *)
Lemma findAvailableSlots_window_test tz hc api d s e slots :
  findAvailableSlots tz hc api d s e = Resolved slots ->
  forall slot, In slot slots ->
    schedulingWindowStart <= pacificHourOf hc (slot_start slot)
    /\ pacificHourOf hc (slot_end slot) <= schedulingWindowEnd.
Proof.
  intros H. apply findAvailableSlots_resolved in H.
  destruct H as (events & _ & ->).
  apply Forall_forall. unfold searchSlots.
  apply slots_forall; [|constructor].
  intros cur slotEnd W _. cbn [slot_start slot_end].
  unfold isWithinSchedulingWindow in W. apply andb_true_iff in W.
  destruct W as [W1 W2]. apply Z.geb_le in W1. apply Z.leb_le in W2. lia.
Qed.

(** C5, as the code has it.  A request with a non-positive duration or with
    a start date that is not before the end date is not rejected: there is no
    validation and no InvalidRequest condition.  findAvailableSlots throws
    only what the fetch of the events throws; otherwise it resolves with the
    list that the enumeration produces, in which every slot of a non-positive
    duration ends at or before its start, and which is empty when the end date
    is not after the rounded start cursor. *)
Theorem findAvailableSlots_no_validation tz hc api d s e :
  d <= 0 \/ s >= e ->
  (forall m, findAvailableSlots tz hc api d s e = Threw m ->
             getEvents api s e = Threw m)
  /\ (forall events, getEvents api s e = Resolved events ->
        exists slots,
          findAvailableSlots tz hc api d s e = Resolved slots
          /\ (d <= 0 -> forall slot, In slot slots -> slot_end slot <= slot_start slot)
          /\ (e <= initialCursor tz s -> slots = [])).
Proof.
  intros _. split.
  - unfold findAvailableSlots, bind.
    destruct (getEvents api s e); intros m H; [discriminate H|congruence].
  - intros events Hev.
    assert (H : findAvailableSlots tz hc api d s e
                = Resolved (availableSlots (searchSlots tz hc events d e s)))
      by (unfold findAvailableSlots; rewrite Hev; reflexivity).
    eexists. split; [exact H|]. split.
    + intros Hd slot Hin.
      pose proof (proj1 (Forall_forall _ _) (searchSlots_duration tz hc events d e s)
                    slot Hin) as Hdur.
      cbv beta in Hdur. lia.
    + intros He. unfold searchSlots. rewrite whileLoop_unfold.
      replace (loopGuard e _) with false; [reflexivity|].
      symmetry. unfold loopGuard. cbn [currentDate].
      apply andb_false_iff. left. apply Z.ltb_ge. exact He.
Qed.

Lemma findAvailableSlots_no_validation_witness :
  (-30 <= 0 \/ jan6 >= jan6 + minutesMs 30)
  /\ exists slots,
       findAvailableSlots utcZone H23 (calendarWith []) (-30) jan6 (jan6 + minutesMs 30)
       = Resolved slots
       /\ (-30 <= 0 -> forall slot, In slot slots -> slot_end slot <= slot_start slot)
       /\ (jan6 + minutesMs 30 <= initialCursor utcZone jan6 -> slots = []).
Proof.
  assert (H : -30 <= 0 \/ jan6 >= jan6 + minutesMs 30) by (left; lia).
  split; [exact H|].
  apply (proj2 (findAvailableSlots_no_validation utcZone H23 (calendarWith []) (-30)
                  jan6 (jan6 + minutesMs 30) H) []).
  reflexivity.
Defined.

(** C5, as the specification states it, fails: a request for -30 minutes is
    searched like any other and resolves with a slot that ends before it
    starts, and a request whose start date is after its end date resolves
    with the empty list. *)
Lemma findAvailableSlots_searches_invalid_requests :
  -30 <= 0
  /\ findAvailableSlots utcZone H23 (calendarWith []) (-30) jan6 (jan6 + minutesMs 30)
     = Resolved [mkSlot jan6 (jan6 - minutesMs 30) true]
  /\ jan6 + hoursMs 1 >= jan6
  /\ findAvailableSlots utcZone H23 (calendarWith []) 60 (jan6 + hoursMs 1) jan6
     = Resolved [].
Proof.
  split; [lia|]. split; [vm_compute; reflexivity|].
  split; [vm_compute; discriminate|]. vm_compute; reflexivity.
Qed.

End CalendarFacts.

(** ** Order of the collected slots *)

Module OrderFacts.

Import JSDateFacts LoopFacts CalendarFacts.

Lemma stepCursor_eq tz cur :
  stepCursor tz cur = UTC tz (LocalTime tz cur + 30 * msPerMinute).
Proof.
  unfold stepCursor, setMinutes, getMinutes.
  rewrite MakeDate_minutes_shift. reflexivity.
Qed.

Lemma fastForward_cases tz hc cur :
  fastForward tz hc cur = cur
  \/ exists d, 0 < d /\ fastForward tz hc cur = UTC tz (LocalTime tz cur + d).
Proof.
  unfold fastForward. cbv zeta.
  pose proof (pacificHourOf_range hc cur) as Hh.
  destruct ((pacificHourOf hc cur >=? schedulingWindowEnd)
            || (pacificHourOf hc cur <? schedulingWindowStart)) eqn:Out;
    [right|left; reflexivity].
  set (k := if pacificHourOf hc cur >=? schedulingWindowEnd
            then 24 - pacificHourOf hc cur + schedulingWindowStart
            else schedulingWindowStart - pacificHourOf hc cur).
  assert (Hk : 1 <= k).
  { subst k. unfold schedulingWindowEnd, schedulingWindowStart in *.
    apply orb_true_iff in Out.
    destruct (Z.geb_spec (pacificHourOf hc cur) 24); [lia|].
    destruct Out as [Out|Out]; [discriminate|]. apply Z.ltb_lt in Out. lia. }
  exists (k * msPerHour - LocalTime tz cur mod msPerHour). split.
  - pose proof (Z.mod_pos_bound (LocalTime tz cur) msPerHour) as Hm.
    unfold msPerHour in *. lia.
  - unfold setHours4, getHours. rewrite MakeDate_hour_start. f_equal. lia.
Qed.

Lemma next_cursor_later tz hc cur :
  ForwardZone tz -> canonical tz cur ->
  cur < fastForward tz hc (stepCursor tz cur)
  /\ canonical tz (fastForward tz hc (stepCursor tz cur)).
Proof.
  intros [Hc Hf] Hcur.
  assert (H1 : cur < stepCursor tz cur)
    by (rewrite stepCursor_eq; apply Hf; [exact Hcur|unfold msPerMinute; lia]).
  assert (H2 : canonical tz (stepCursor tz cur))
    by (rewrite stepCursor_eq; apply Hc).
  destruct (fastForward_cases tz hc (stepCursor tz cur)) as [E | (d & Hd & E)];
    rewrite E.
  - auto.
  - split; [|apply Hc].
    pose proof (Hf _ d H2 Hd). lia.
Qed.

Lemma initialCursor_canonical tz s : ForwardZone tz -> canonical tz (initialCursor tz s).
Proof.
  intros [Hc _]. unfold initialCursor. cbv zeta.
  destruct (_ >=? 60); [unfold setHours4|unfold setMinutes3]; apply Hc.
Qed.

Lemma StronglySorted_snoc (l : list Z) (x : Z) :
  StronglySorted Z.lt l -> Forall (fun y => y < x) l ->
  StronglySorted Z.lt (l ++ [x]).
Proof.
  induction 1 as [|a l Hs IH Ha]; intros Hl; simpl.
  - repeat constructor.
  - inversion Hl as [|? ? Hax Hlx]; subst.
    constructor; [apply IH, Hlx|].
    apply Forall_app. split; [exact Ha|]. constructor; [exact Hax|constructor].
Qed.

Lemma loopBody_ascending tz hc events d st :
  ForwardZone tz -> ascending tz st -> ascending tz (loopBody tz hc events d st).
Proof.
  intros Hz (Hcan & Hsorted & Hbefore).
  destruct (next_cursor_later tz hc (currentDate st) Hz Hcan) as [Hlt Hcan'].
  unfold ascending.
  destruct (body_slots tz hc events d st) as [E | (E & _)]; rewrite E;
    unfold loopBody; cbn [currentDate]; (split; [exact Hcan'|]).
  - split; [exact Hsorted|].
    eapply Forall_impl; [|exact Hbefore]. cbv beta. intros y Hy. lia.
  - rewrite map_app. cbn [map slot_start]. split.
    + apply StronglySorted_snoc; assumption.
    + apply Forall_app. split.
      * eapply Forall_impl; [|exact Hbefore]. cbv beta. intros y Hy. lia.
      * constructor; [exact Hlt|constructor].
Qed.

(** C9. Determinism and order: the outcome of findAvailableSlots depends on
    the calendar only through the events fetched for the range (two
    evaluations that fetch the same events give the same outcome), and in a
    host zone whose wall clock goes forward the returned slots are in
    strictly ascending order of start. *)
Theorem findAvailableSlots_deterministic_sorted tz hc api api' d s e :
  ForwardZone tz ->
  getEvents api s e = getEvents api' s e ->
  findAvailableSlots tz hc api d s e = findAvailableSlots tz hc api' d s e
  /\ forall slots, findAvailableSlots tz hc api d s e = Resolved slots ->
                   StronglySorted Z.lt (map slot_start slots).
Proof.
  intros Hz Hev. split.
  - unfold findAvailableSlots. rewrite Hev. reflexivity.
  - intros slots H. apply findAvailableSlots_resolved in H.
    destruct H as (events & _ & ->).
    unfold searchSlots.
    apply (whileLoop_invariant tz hc events d e (ascending tz)).
    + intros st Hst _. apply loopBody_ascending; assumption.
    + repeat split; cbn [currentDate availableSlots map]; try constructor.
      apply initialCursor_canonical, Hz.
Qed.

Lemma findAvailableSlots_deterministic_sorted_witness :
  ForwardZone losAngeles
  /\ findAvailableSlots losAngeles H23 (calendarWith []) 30
       (mar9 + minutesMs 450) (mar9 + hoursMs 13)
     = Resolved [mkSlot (mar9 + minutesMs 450) (mar9 + hoursMs 8) true;
                 mkSlot (mar9 + hoursMs 12) (mar9 + minutesMs 750) true;
                 mkSlot (mar9 + minutesMs 750) (mar9 + hoursMs 13) true]
  /\ StronglySorted Z.lt
       [mar9 + minutesMs 450; mar9 + hoursMs 12; mar9 + minutesMs 750].
Proof.
  assert (H : findAvailableSlots losAngeles H23 (calendarWith []) 30
                (mar9 + minutesMs 450) (mar9 + hoursMs 13)
              = Resolved [mkSlot (mar9 + minutesMs 450) (mar9 + hoursMs 8) true;
                          mkSlot (mar9 + hoursMs 12) (mar9 + minutesMs 750) true;
                          mkSlot (mar9 + minutesMs 750) (mar9 + hoursMs 13) true])
    by (vm_compute; reflexivity).
  split; [exact ZoneFacts.losAngeles_forward|]. split; [exact H|].
  exact (proj2 (findAvailableSlots_deterministic_sorted losAngeles H23
                  (calendarWith []) (calendarWith []) 30
                  (mar9 + minutesMs 450) (mar9 + hoursMs 13)
                  ZoneFacts.losAngeles_forward eq_refl) _ H).
Defined.

End OrderFacts.

(** ** Behaviour at particular inputs *)

Module Evaluation.

Ltac conjuncts := repeat match goal with |- _ /\ _ => split end.
Ltac evaluate := vm_compute; reflexivity.

(** A search over a whole year stops after 500 rounds, long before its end
    date (the cursor has reached 2025-01-19T03:00Z), and resolves with the
    slots found until then. *)
Lemma searchSlots_reaches_cap :
  let st := searchSlots utcZone H23 [] 60 (jan6 + hoursMs 8760) jan6 in
  slotsChecked st = maxSlotsToCheck
  /\ currentDate st = jan6 + hoursMs 315
  /\ currentDate st < jan6 + hoursMs 8760
  /\ List.length (availableSlots st) = 500%nat.
Proof. cbv zeta. conjuncts; evaluate. Qed.

(** C1. A search that starts at 23:30 in Los Angeles (2025-01-05) for a task of
    50 minutes returns the candidate from 23:30 to 00:20 of the next day: the
    hour of its end reads 0 (or 24), which passes the test
    [slotEndPacificHour <= 24], although the slot leaves the window
    05:00-24:00 at midnight. *)
Theorem findAvailableSlots_accepts_slot_past_midnight (hc : HourCycle) :
  let slotStart := jan6 + minutesMs 450 in
  let slotEnd := jan6 + minutesMs 500 in
  findAvailableSlots utcZone hc (calendarWith []) 50 slotStart (jan6 + minutesMs 480)
  = Resolved [mkSlot slotStart slotEnd true]
  /\ HourFromTime (LocalTime losAngeles slotStart) = 23
  /\ MinFromTime (LocalTime losAngeles slotStart) = 30
  /\ Day (LocalTime losAngeles slotEnd) = Day (LocalTime losAngeles slotStart) + 1
  /\ HourFromTime (LocalTime losAngeles slotEnd) = 0
  /\ MinFromTime (LocalTime losAngeles slotEnd) = 20
  /\ (exists t, slotStart <= t < slotEnd
                /\ ~ (schedulingWindowStart
                      <= HourFromTime (LocalTime losAngeles t)
                      < schedulingWindowEnd)).
Proof.
  cbv zeta. conjuncts;
    try (exists (jan6 + minutesMs 490); vm_compute; intuition discriminate);
    destruct hc; evaluate.
Qed.

(** Where the midnight hour is printed as 24, a search that starts at 00:10
    in Los Angeles returns the slot from 00:30 to 01:00: its start reads 24,
    which passes the test [pacificHour >= 5].  Where it is printed as 0 the
    slot is not returned. *)
Lemma findAvailableSlots_midnight_hour :
  findAvailableSlots utcZone H24 (calendarWith []) 30
    (jan6 + minutesMs 490) (jan6 + minutesMs 520)
  = Resolved [mkSlot (jan6 + minutesMs 510) (jan6 + minutesMs 540) true]
  /\ findAvailableSlots utcZone H23 (calendarWith []) 30
       (jan6 + minutesMs 490) (jan6 + minutesMs 520)
     = Resolved [].
Proof. split; evaluate. Qed.

(** C3. With the host clock on UTC, the cursor that steps from 23:30 to 00:00
    in Los Angeles on 2025-03-09 (the day daylight time starts) is moved five
    hours of absolute time ahead, to 13:00Z: that is 06:00 in Los Angeles, one
    hour after the next 05:00 (12:00Z), and the free candidates at 05:00 and
    05:30 are never examined.  With the host clock on Los Angeles time the
    same cursor is moved to 12:00Z.  On 2025-11-02 (the day daylight time
    ends) the cursor that steps to 00:00 is moved to 12:00Z, which is 04:00 in
    Los Angeles, before the window. *)
Theorem fastForward_misses_window_start_on_dst_day (hc : HourCycle) :
  let before := mar9 + minutesMs 450 in
  stepCursor utcZone before = mar9 + hoursMs 8
  /\ pacificHourOf hc (mar9 + hoursMs 8) = (match hc with H23 => 0 | H24 => 24 end)
  /\ fastForward utcZone hc (stepCursor utcZone before) = mar9 + hoursMs 13
  /\ HourFromTime (LocalTime losAngeles (mar9 + hoursMs 13)) = 6
  /\ HourFromTime (LocalTime losAngeles (mar9 + hoursMs 12)) = 5
  /\ MinFromTime (LocalTime losAngeles (mar9 + hoursMs 12)) = 0
  /\ findAvailableSlots utcZone hc (calendarWith []) 30 before (mar9 + hoursMs 14)
     = Resolved [mkSlot before (mar9 + hoursMs 8) true;
                 mkSlot (mar9 + hoursMs 13) (mar9 + minutesMs 810) true;
                 mkSlot (mar9 + minutesMs 810) (mar9 + hoursMs 14) true]
  /\ fastForward losAngeles hc (stepCursor losAngeles before) = mar9 + hoursMs 12
  /\ fastForward utcZone hc (stepCursor utcZone (nov2 + minutesMs 390))
     = nov2 + hoursMs 12
  /\ HourFromTime (LocalTime losAngeles (nov2 + hoursMs 12)) = 4.
Proof.
  cbv zeta. conjuncts; destruct hc; evaluate.
Qed.

(** On a host without transitions, the initial cursor is the start date
    without its seconds and milliseconds, moved up to the next minute that is
    a multiple of 30. *)
Lemma initialCursor_fixedZone off s :
  let lt := LocalTime (fixedZone off) s in
  initialCursor (fixedZone off) s
  = s - lt mod msPerMinute
    + (ceilDiv (MinFromTime lt) 30 * 30 - MinFromTime lt) * msPerMinute.
Proof.
  cbv zeta. unfold initialCursor, getMinutes, getHours, setHours4, setMinutes3.
  cbv zeta. unfold UTC. cbn [tzaOfLocal fixedZone].
  set (lt := LocalTime (fixedZone off) s).
  assert (Hs : s = lt - off) by (subst lt; unfold LocalTime; cbn; lia).
  clearbody lt. subst s.
  pose proof (JSDateFacts.MinFromTime_range lt) as Hm.
  assert (Hc : ceilDiv (MinFromTime lt) 30 * 30 = 0
               \/ ceilDiv (MinFromTime lt) 30 * 30 = 30
               \/ ceilDiv (MinFromTime lt) 30 * 30 = 60)
    by (unfold ceilDiv; Z.div_mod_to_equations; lia).
  destruct (Z.geb_spec (ceilDiv (MinFromTime lt) 30 * 30) 60) as [Hge|Hlt].
  - replace (ceilDiv (MinFromTime lt) 30 * 30) with 60 by lia.
    unfold MakeDate, MakeTime, Day, HourFromTime, MinFromTime, msPerDay,
      msPerHour, msPerMinute, msPerSecond in *.
    Z.div_mod_to_equations. lia.
  - revert Hc Hlt. generalize (ceilDiv (MinFromTime lt) 30 * 30). intros r Hc Hlt.
    unfold MakeDate, MakeTime, Day, HourFromTime, MinFromTime, msPerDay,
      msPerHour, msPerMinute, msPerSecond in *.
    Z.div_mod_to_equations. lia.
Qed.

(** X17. On a host without transitions, the initial cursor is before the
    start date exactly when the minutes of the start date are 0 or 30 and its
    seconds or milliseconds are not 0. *)
Lemma initialCursor_fixedZone_earlier off s :
  let lt := LocalTime (fixedZone off) s in
  initialCursor (fixedZone off) s < s
  <-> MinFromTime lt mod 30 = 0 /\ 0 < lt mod msPerMinute.
Proof.
  cbv zeta. rewrite initialCursor_fixedZone. cbv zeta.
  generalize (LocalTime (fixedZone off) s). intros lt.
  unfold ceilDiv, MinFromTime, msPerMinute.
  Z.div_mod_to_equations. lia.
Qed.

(** On a host in Los Angeles, a start date in the second pass of the hour
    repeated when daylight time ends (2025-11-02T09:00:00Z, 01:00 PST) gives a
    cursor in the first pass (08:00Z, 01:00 PDT), one hour earlier. *)
Lemma initialCursor_repeated_hour :
  getMinutes losAngeles (nov2 + hoursMs 9) = 0
  /\ initialCursor losAngeles (nov2 + hoursMs 9) = nov2 + hoursMs 8.
Proof. split; evaluate. Qed.

(** C8. With the host clock on UTC and a start date of 2025-01-06T00:00:30Z,
    the minutes (0) are already a multiple of 30, so the cursor is set to
    minute 0, second 0, millisecond 0 of the same hour: 30 seconds before the
    start date; the search then returns a slot that begins before the start
    date. *)
Theorem initialCursor_before_startDate (hc : HourCycle) :
  let startDate := jan6 + 30 * msPerSecond in
  getMinutes utcZone startDate = 0
  /\ initialCursor utcZone startDate = jan6
  /\ initialCursor utcZone startDate < startDate
  /\ findAvailableSlots utcZone hc (calendarWith []) 30 startDate (jan6 + minutesMs 30)
     = Resolved [mkSlot jan6 (jan6 + minutesMs 30) true].
Proof.
  cbv zeta. conjuncts; destruct hc; evaluate.
Qed.

End Evaluation.

(** ** The scheduling flow *)

Module AgentFacts.

Import CalendarFacts.

Lemma searchStartDate_eq now task :
  searchStartDate now task
  = match preferredStartDate task with
    | Some p => Z.max now p
    | None => now
    end.
Proof.
  unfold searchStartDate. destruct (preferredStartDate task) as [p|]; [|reflexivity].
  rewrite Z.gtb_ltb. destruct (Z.ltb_spec now p); lia.
Qed.

(** C7. The search end is the later of the search start plus seven days and
    the deadline (the search start plus seven days when there is no deadline);
    so for a deadline earlier than the search start plus seven days the search
    range goes past the deadline.  The flow searches that range: whenever the
    search from the search start to seven days later finds slots, the flow
    books the first of them, whatever the deadline.  So it can book a slot
    that starts after the deadline: with a calendar busy until 18:00 and a task
    due at 17:00, the event is created from 18:00 to 19:00. *)
Theorem searchEndDate_ignores_near_deadline :
  (forall now task,
      searchEndDate now task
      = match deadline task with
        | Some due => Z.max (searchStartDate now task + 7 * 24 * 60 * 60 * 1000) due
        | None => searchStartDate now task + 7 * 24 * 60 * 60 * 1000
        end)
  /\ (forall now task due,
        deadline task = Some due ->
        due < searchStartDate now task + 7 * 24 * 60 * 60 * 1000 ->
        searchEndDate now task = searchStartDate now task + 7 * 24 * 60 * 60 * 1000
        /\ due < searchEndDate now task)
  /\ (forall rt task due selectedSlot rest,
        deadline task = Some due ->
        due < searchStartDate (now rt) task + 7 * 24 * 60 * 60 * 1000 ->
        isAuthenticated (calendar rt) = true ->
        findAvailableSlots (hostZone rt) (hourCycle rt) (calendar rt)
          (durationOf task) (searchStartDate (now rt) task)
          (searchStartDate (now rt) task + 7 * 24 * 60 * 60 * 1000)
        = Resolved (selectedSlot :: rest) ->
        createAndScheduleTask rt task
        = (eventResult <-
             createEvent (calendar rt) (title task) (descriptionOf task)
               (slot_start selectedSlot) (slot_end selectedSlot) ;;
           Resolved
             (mkResult
                ("Task " ++ quote ++ title task ++ quote ++ " scheduled for "
                 ++ formatScheduledTime rt (slot_start selectedSlot)
                 ++ " (" ++ showNumber (durationOf task) ++ " minutes)"
                 ++ newline ++ newline ++ "View event: " ++ snd eventResult)
                (fst eventResult) (snd eventResult))))
  /\ (let rt := runtimeAt (recordingCalendar [afternoon]) in
      let due := jan6 + hoursMs 1 in
      deadline urgentReport = Some due
      /\ due < searchStartDate (now rt) urgentReport + 7 * 24 * 60 * 60 * 1000
      /\ due < jan6 + hoursMs 2
      /\ exists text,
           createAndScheduleTask rt urgentReport
           = Resolved (mkResult text (showNumber (jan6 + hoursMs 2))
                         (showNumber (jan6 + hoursMs 3)))).
Proof.
  assert (Hend : forall now task,
             searchEndDate now task
             = match deadline task with
               | Some due =>
                   Z.max (searchStartDate now task + 7 * 24 * 60 * 60 * 1000) due
               | None => searchStartDate now task + 7 * 24 * 60 * 60 * 1000
               end).
  { intros now task. unfold searchEndDate, getTime. cbv zeta.
    destruct (deadline task) as [due|]; [|reflexivity].
    rewrite Z.gtb_ltb.
    destruct (Z.ltb_spec (searchStartDate now task + 7 * 24 * 60 * 60 * 1000) due); lia. }
  split; [exact Hend|]. split; [|split].
  - intros now task due Hd Hlt. rewrite Hend, Hd. lia.
  - intros rt task due selectedSlot rest Hd Hlt Hauth Hsearch.
    unfold createAndScheduleTask. rewrite Hauth. cbn [negb]. cbv zeta.
    replace (searchEndDate (now rt) task)
      with (searchStartDate (now rt) task + 7 * 24 * 60 * 60 * 1000)
      by (rewrite Hend, Hd; lia).
    rewrite Hsearch. reflexivity.
  - cbv zeta. split; [reflexivity|]. split; [vm_compute; reflexivity|].
    split; [vm_compute; reflexivity|].
    eexists. vm_compute. reflexivity.
Qed.

Lemma searchEndDate_ignores_near_deadline_witness :
  let rt := runtimeAt (recordingCalendar [afternoon]) in
  let selectedSlot := mkSlot (jan6 + hoursMs 2) (jan6 + hoursMs 3) true in
  deadline urgentReport = Some (jan6 + hoursMs 1)
  /\ jan6 + hoursMs 1 < searchStartDate jan6 urgentReport + 7 * 24 * 60 * 60 * 1000
  /\ isAuthenticated (calendar rt) = true
  /\ jan6 + hoursMs 1 < slot_start selectedSlot
  /\ searchEndDate jan6 urgentReport = jan6 + 7 * 24 * 60 * 60 * 1000
  /\ createAndScheduleTask rt urgentReport
     = (eventResult <-
          createEvent (calendar rt) (title urgentReport) (descriptionOf urgentReport)
            (slot_start selectedSlot) (slot_end selectedSlot) ;;
        Resolved
          (mkResult
             ("Task " ++ quote ++ title urgentReport ++ quote ++ " scheduled for "
              ++ formatScheduledTime rt (slot_start selectedSlot)
              ++ " (" ++ showNumber (durationOf urgentReport) ++ " minutes)"
              ++ newline ++ newline ++ "View event: " ++ snd eventResult)
             (fst eventResult) (snd eventResult))).
Proof.
  cbv zeta.
  assert (H1 : deadline urgentReport = Some (jan6 + hoursMs 1)) by reflexivity.
  assert (H2 : jan6 + hoursMs 1
               < searchStartDate jan6 urgentReport + 7 * 24 * 60 * 60 * 1000)
    by (vm_compute; reflexivity).
  assert (H3 : isAuthenticated (calendar (runtimeAt (recordingCalendar [afternoon])))
               = true) by reflexivity.
  split; [exact H1|]. split; [exact H2|]. split; [exact H3|].
  split; [vm_compute; reflexivity|]. split.
  - exact (proj1 (proj1 (proj2 searchEndDate_ignores_near_deadline) jan6 urgentReport
                    (jan6 + hoursMs 1) H1 H2)).
  - destruct (findAvailableSlots utcZone H23 (recordingCalendar [afternoon]) 60 jan6
                (jan6 + 7 * 24 * 60 * 60 * 1000)) as [[|first rest]|m] eqn:Hsearch;
      try (exfalso; revert Hsearch; vm_compute; discriminate).
    assert (Hfirst : first = mkSlot (jan6 + hoursMs 2) (jan6 + hoursMs 3) true).
    { revert Hsearch. vm_compute. intros H. injection H as <- _. reflexivity. }
    subst first.
    exact (proj1 (proj2 (proj2 searchEndDate_ignores_near_deadline))
             (runtimeAt (recordingCalendar [afternoon])) urgentReport
             (jan6 + hoursMs 1) _ rest H1 H2 H3 Hsearch).
Defined.

(** C6, as the code has it.  When the calendar is authenticated and the search
    resolves with a non-empty list, createAndScheduleTask books exactly its
    first slot: createEvent is called with the title, the description and the
    start and end of result[0], and the outcome of the flow is built from its
    answer.  When the list is empty, the flow throws an Error with the message
    "No available time slots found in the specified time range" and books
    nothing; the callers treat it like every other failure: processMessage
    answers with the generic text "Sorry, I encountered an error saving the
    task. Please try again." and POST /tasks with status 500 and "Failed to
    create task". *)
Theorem createAndScheduleTask_selects_first_or_throws rt task slots :
  isAuthenticated (calendar rt) = true ->
  findAvailableSlots (hostZone rt) (hourCycle rt) (calendar rt) (durationOf task)
    (searchStartDate (now rt) task) (searchEndDate (now rt) task)
  = Resolved slots ->
  match slots with
  | [] =>
      createAndScheduleTask rt task = Threw noSlotsFound
      /\ (forall stripped,
            processScheduleCommand rt stripped task
            = (stripped ++ newline ++ newline ++ "‚ùå " ++ genericFailure)%string)
      /\ postTasks rt task = Error500 "Failed to create task"
  | selectedSlot :: _ =>
      createAndScheduleTask rt task
      = (eventResult <-
           createEvent (calendar rt) (title task) (descriptionOf task)
             (slot_start selectedSlot) (slot_end selectedSlot) ;;
         Resolved
           (mkResult
              ("Task " ++ quote ++ title task ++ quote ++ " scheduled for "
               ++ formatScheduledTime rt (slot_start selectedSlot)
               ++ " (" ++ showNumber (durationOf task) ++ " minutes)"
               ++ newline ++ newline ++ "View event: " ++ snd eventResult)
              (fst eventResult) (snd eventResult)))
  end.
Proof.
  intros Hauth Hsearch.
  assert (E : createAndScheduleTask rt task
              = match slots with
                | [] => Threw noSlotsFound
                | selectedSlot :: _ =>
                    eventResult <-
                      createEvent (calendar rt) (title task) (descriptionOf task)
                        (slot_start selectedSlot) (slot_end selectedSlot) ;;
                    Resolved
                      (mkResult
                         ("Task " ++ quote ++ title task ++ quote ++ " scheduled for "
                          ++ formatScheduledTime rt (slot_start selectedSlot)
                          ++ " (" ++ showNumber (durationOf task) ++ " minutes)"
                          ++ newline ++ newline ++ "View event: " ++ snd eventResult)
                         (fst eventResult) (snd eventResult))
                end).
  { unfold createAndScheduleTask. rewrite Hauth. cbn [negb]. cbv zeta.
    rewrite Hsearch. reflexivity. }
  destruct slots as [|selectedSlot rest]; [|exact E].
  split; [exact E|]. split.
  - intros stripped. unfold processScheduleCommand. rewrite E. reflexivity.
  - unfold postTasks. rewrite E. reflexivity.
Qed.

Lemma createAndScheduleTask_selects_first_or_throws_witness :
  isAuthenticated (calendar (runtimeAt (calendarWith [booked]))) = true
  /\ createAndScheduleTask (runtimeAt (calendarWith [booked])) report
     = Threw noSlotsFound
  /\ postTasks (runtimeAt (calendarWith [booked])) report
     = Error500 "Failed to create task".
Proof.
  pose proof (createAndScheduleTask_selects_first_or_throws
                (runtimeAt (calendarWith [booked])) report [] eq_refl
                ltac:(vm_compute; reflexivity)) as (H1 & _ & H3).
  split; [reflexivity|]. split; [exact H1|exact H3].
Defined.

(** C6, as the specification states it, fails: with a calendar that is busy
    throughout, the empty search result makes the flow throw, and what the
    user is shown (the chat reply, the HTTP answer) is what is shown when the
    calendar is not authenticated; no "no slots available" condition reaches
    the user. *)
Lemma createAndScheduleTask_not_found_is_a_generic_failure :
  let rt := runtimeAt (calendarWith [booked]) in
  findAvailableSlots (hostZone rt) (hourCycle rt) (calendar rt) (durationOf report)
    (searchStartDate (now rt) report) (searchEndDate (now rt) report)
  = Resolved []
  /\ createAndScheduleTask rt report = Threw noSlotsFound
  /\ createAndScheduleTask (runtimeAt signedOut) report = Threw notAuthenticated
  /\ processScheduleCommand rt "Sure." report
     = processScheduleCommand (runtimeAt signedOut) "Sure." report
  /\ processScheduleCommand rt "Sure." report
     = ("Sure." ++ newline ++ newline ++ "‚ùå " ++ genericFailure)%string
  /\ postTasks rt report = postTasks (runtimeAt signedOut) report
  /\ postTasks rt report = Error500 "Failed to create task".
Proof.
  cbv zeta. repeat match goal with |- _ /\ _ => split end; vm_compute; reflexivity.
Qed.

End AgentFacts.

(** ** More on the result of [findAvailableSlots] *)

Module SlotFacts.

Import JSDateFacts LoopFacts CalendarFacts OrderFacts.

(** The cursor and the counter do not depend on the events: a run with
    events collects the free slots of the run without events. *)
Lemma iterate_filter tz hc events d e (n : nat) :
  forall st st0,
    currentDate st = currentDate st0 ->
    slotsChecked st = slotsChecked st0 ->
    availableSlots st = filter (isFree events) (availableSlots st0) ->
    availableSlots (iterate tz hc events d e n st)
    = filter (isFree events) (availableSlots (iterate tz hc [] d e n st0)).
Proof.
  induction n as [|n IH]; intros st st0 Hc Hk Hs; [exact Hs|].
  cbn [iterate]. unfold loopGuard. rewrite Hc, Hk.
  destruct ((currentDate st0 <? e) && (slotsChecked st0 <? maxSlotsToCheck));
    [|exact Hs].
  apply IH; unfold loopBody, getTime; cbn [currentDate slotsChecked availableSlots];
    rewrite ?Hc, ?Hk; try reflexivity.
  destruct (isWithinSchedulingWindow hc _ _); [|exact Hs].
  cbn [hasConflict existsb negb]. rewrite filter_app, <- Hs.
  cbn [filter]. unfold isFree. cbn [slot_start slot_end].
  destruct (hasConflict events _ _); cbn [negb]; [rewrite app_nil_r|]; reflexivity.
Qed.

(** X1. The events only filter: the result for a calendar is the result for
    the empty calendar without the slots that overlap an event. *)
Theorem findAvailableSlots_filters_free tz hc api d s e events :
  getEvents api s e = Resolved events ->
  findAvailableSlots tz hc api d s e
  = Resolved (filter (isFree events)
                (availableSlots (searchSlots tz hc [] d e s))).
Proof.
  intros Hev. unfold findAvailableSlots. rewrite Hev. cbn [bind]. f_equal.
  unfold searchSlots, whileLoop. cbn [slotsChecked].
  apply iterate_filter; reflexivity.
Qed.

Lemma findAvailableSlots_filters_free_witness :
  findAvailableSlots utcZone H23 (calendarWith [meeting]) 30
    (jan6 + minutesMs 990) (jan6 + minutesMs 1110)
  = Resolved (filter (isFree [meeting])
                (availableSlots
                   (searchSlots utcZone H23 [] 30 (jan6 + minutesMs 1110)
                      (jan6 + minutesMs 990)))).
Proof.
  exact (findAvailableSlots_filters_free utcZone H23 (calendarWith [meeting]) 30
           (jan6 + minutesMs 990) (jan6 + minutesMs 1110) [meeting] eq_refl).
Defined.

Lemma iterate_extends tz hc events d e (n : nat) :
  forall st, exists later,
    availableSlots (iterate tz hc events d e n st) = availableSlots st ++ later.
Proof.
  induction n as [|n IH]; intros st; [exists []; symmetry; apply app_nil_r|].
  cbn [iterate]. destruct (loopGuard e st); [|exists []; symmetry; apply app_nil_r].
  destruct (IH (loopBody tz hc events d st)) as (later & E). rewrite E.
  destruct (body_slots tz hc events d st) as [B | (B & _)]; rewrite B.
  - exists later. reflexivity.
  - rewrite <- app_assoc. eexists. reflexivity.
Qed.

Lemma iterate_prefix tz hc events d e1 e2 (n : nat) :
  e1 <= e2 ->
  forall st, exists later,
    availableSlots (iterate tz hc events d e2 n st)
    = availableSlots (iterate tz hc events d e1 n st) ++ later.
Proof.
  intros He. induction n as [|n IH]; intros st;
    [exists []; symmetry; apply app_nil_r|].
  cbn [iterate]. destruct (loopGuard e1 st) eqn:G1.
  - replace (loopGuard e2 st) with true; [apply IH|].
    symmetry. apply guard_true in G1. unfold loopGuard.
    apply andb_true_iff. rewrite !Z.ltb_lt. lia.
  - change (if loopGuard e2 st then iterate tz hc events d e2 n (loopBody tz hc events d st)
            else st)
      with (iterate tz hc events d e2 (S n) st).
    apply iterate_extends.
Qed.

(** X2. A later end date only adds slots at the end: the result for the
    earlier end date is a prefix of the result for the later one, so the first
    slot, when there is one, is the same. *)
Theorem searchSlots_prefix tz hc events d s e1 e2 :
  e1 <= e2 ->
  (exists later,
     availableSlots (searchSlots tz hc events d e2 s)
     = availableSlots (searchSlots tz hc events d e1 s) ++ later)
  /\ (forall first,
        hd_error (availableSlots (searchSlots tz hc events d e1 s)) = Some first ->
        hd_error (availableSlots (searchSlots tz hc events d e2 s)) = Some first).
Proof.
  intros He.
  assert (H : exists later,
             availableSlots (searchSlots tz hc events d e2 s)
             = availableSlots (searchSlots tz hc events d e1 s) ++ later)
    by (unfold searchSlots, whileLoop; cbn [slotsChecked]; apply iterate_prefix, He).
  split; [exact H|].
  destruct H as (later & ->). intros first.
  destruct (availableSlots (searchSlots tz hc events d e1 s)); [discriminate|].
  cbn. auto.
Qed.

Lemma searchSlots_prefix_witness :
  jan6 + hoursMs 1 <= jan6 + hoursMs 2
  /\ hd_error (availableSlots
                 (searchSlots utcZone H23 [] 60 (jan6 + hoursMs 2) jan6))
     = Some (mkSlot jan6 (jan6 + hoursMs 1) true).
Proof.
  assert (H : jan6 + hoursMs 1 <= jan6 + hoursMs 2) by (vm_compute; discriminate).
  split; [exact H|].
  apply (proj2 (searchSlots_prefix utcZone H23 [] 60 jan6
                  (jan6 + hoursMs 1) (jan6 + hoursMs 2) H)).
  vm_compute. reflexivity.
Defined.

(** The jump of [fastForward], in hours of the host clock. *)
Lemma fastForward_hours tz hc cur :
  (schedulingWindowStart <= pacificHourOf hc cur < schedulingWindowEnd
   /\ fastForward tz hc cur = cur)
  \/ (exists k,
        ((pacificHourOf hc cur = 24 /\ k = 5)
         \/ (pacificHourOf hc cur < 5 /\ k = 5 - pacificHourOf hc cur))
        /\ fastForward tz hc cur
           = UTC tz (LocalTime tz cur - LocalTime tz cur mod msPerHour
                     + k * msPerHour)).
Proof.
  unfold fastForward. cbv zeta.
  pose proof (pacificHourOf_range hc cur) as Hh.
  unfold schedulingWindowEnd, schedulingWindowStart.
  destruct (Z.geb_spec (pacificHourOf hc cur) 24) as [Hge|Hlt]; cbn [orb].
  - right. exists 5. split; [left; lia|].
    unfold setHours4, getHours. rewrite MakeDate_hour_start.
    replace (24 - pacificHourOf hc cur + 5) with 5 by lia. reflexivity.
  - destruct (Z.ltb_spec (pacificHourOf hc cur) 5) as [Hlo|Hhi].
    + right. exists (5 - pacificHourOf hc cur). split; [right; lia|].
      unfold setHours4, getHours. rewrite MakeDate_hour_start. reflexivity.
    + left. split; [lia|reflexivity].
Qed.

Lemma StronglySorted_append_last {A : Type} (R : A -> A -> Prop) (l : list A) (x : A) :
  StronglySorted R l -> Forall (fun y => R y x) l -> StronglySorted R (l ++ [x]).
Proof.
  induction 1 as [|a l Hs IH Ha]; intros Hl; simpl.
  - repeat constructor.
  - inversion Hl as [|? ? Hax Hlx]; subst.
    constructor; [apply IH, Hlx|].
    apply Forall_app. split; [exact Ha|]. constructor; [exact Hax|constructor].
Qed.

Section FixedHost.

Variable off : Z.
Variable hc : HourCycle.

Lemma next_cursor_fixedZone cur :
  (cur + off) mod (30 * msPerMinute) = 0 ->
  let next := fastForward (fixedZone off) hc (stepCursor (fixedZone off) cur) in
  cur + 30 * msPerMinute <= next /\ (next + off) mod (30 * msPerMinute) = 0.
Proof.
  intros Ha. cbv zeta.
  assert (Hs : stepCursor (fixedZone off) cur = cur + 30 * msPerMinute)
    by (rewrite stepCursor_eq; unfold UTC, LocalTime;
        cbn [tzaOfUTC tzaOfLocal fixedZone]; lia).
  rewrite Hs. clear Hs. set (c1 := cur + 30 * msPerMinute).
  destruct (fastForward_hours (fixedZone off) hc c1) as [[_ E] | (k & Hk & E)];
    rewrite E.
  - subst c1. unfold msPerMinute in *. split; [lia|].
    Z.div_mod_to_equations. lia.
  - assert (Hk1 : 1 <= k).
    { pose proof (pacificHourOf_range hc c1). lia. }
    unfold UTC, LocalTime. cbn [tzaOfUTC tzaOfLocal fixedZone].
    subst c1. unfold msPerMinute, msPerHour in *.
    Z.div_mod_to_equations. lia.
Qed.

Variable events : list CalendarEvent.
Variable d s e : Z.

(** On a host without transitions: the cursor and the starts collected are on
    half hours of the host clock, not before the initial cursor, and half an
    hour apart. *)
Lemma searchSlots_fixedZone :
  let starts := map slot_start
                  (availableSlots (searchSlots (fixedZone off) hc events d e s)) in
  Forall (fun y => (y + off) mod (30 * msPerMinute) = 0
                   /\ initialCursor (fixedZone off) s <= y) starts
  /\ StronglySorted (fun a b => a + 30 * msPerMinute <= b) starts.
Proof.
  cbv zeta. unfold searchSlots.
  set (c0 := initialCursor (fixedZone off) s).
  enough (H : (fun st =>
                 ((currentDate st + off) mod (30 * msPerMinute) = 0
                  /\ c0 <= currentDate st)
                 /\ Forall (fun y => ((y + off) mod (30 * msPerMinute) = 0 /\ c0 <= y)
                                     /\ y + 30 * msPerMinute <= currentDate st)
                      (map slot_start (availableSlots st))
                 /\ StronglySorted (fun a b => a + 30 * msPerMinute <= b)
                      (map slot_start (availableSlots st)))
                (whileLoop (fixedZone off) hc events d e (mkState c0 0 []))).
  { cbv beta in H. destruct H as (_ & HF & HS). split; [|exact HS].
    eapply Forall_impl; [|exact HF]. cbv beta. tauto. }
  apply whileLoop_invariant.
  - intros st ((Ha & Hc) & HF & HS) _.
    destruct (next_cursor_fixedZone (currentDate st) Ha) as [Hn Hna].
    assert (HF' : Forall (fun y => ((y + off) mod (30 * msPerMinute) = 0 /\ c0 <= y)
                                   /\ y + 30 * msPerMinute
                                      <= fastForward (fixedZone off) hc
                                           (stepCursor (fixedZone off) (currentDate st)))
                    (map slot_start (availableSlots st))).
    { eapply Forall_impl; [|exact HF]. cbv beta. unfold msPerMinute in *.
      intros y Hy. split; [tauto|lia]. }
    destruct (body_slots (fixedZone off) hc events d st) as [B | (B & _)];
      rewrite B; unfold loopBody; cbn [currentDate];
      (split; [split; [exact Hna|unfold msPerMinute in *; lia]|]).
    + split; [exact HF'|exact HS].
    + rewrite map_app. cbn [map slot_start]. split.
      * apply Forall_app. split; [exact HF'|].
        constructor; [|constructor]. tauto.
      * apply StronglySorted_append_last; [exact HS|].
        eapply Forall_impl; [|exact HF]. cbv beta. tauto.
  - cbn [currentDate availableSlots map]. split; [split|split; constructor].
    + subst c0. rewrite Evaluation.initialCursor_fixedZone. cbv zeta.
      unfold LocalTime. cbn [tzaOfUTC fixedZone].
      unfold ceilDiv, MinFromTime, msPerMinute. Z.div_mod_to_equations. lia.
    + lia.
Qed.

End FixedHost.

Lemma StronglySorted_map_inv {A B : Type} (f : A -> B) (R : B -> B -> Prop)
  (l : list A) :
  StronglySorted R (map f l) -> StronglySorted (fun a b => R (f a) (f b)) l.
Proof.
  induction l as [|a l IH]; intros H; [constructor|].
  cbn [map] in H. inversion H as [|? ? Hs Ha]; subst.
  constructor; [apply IH, Hs|].
  apply Forall_forall. intros b Hb.
  exact (proj1 (Forall_forall _ _) Ha (f b) (in_map f l b Hb)).
Qed.

Lemma StronglySorted_weaken {A : Type} (P : A -> Prop) (R R' : A -> A -> Prop)
  (l : list A) :
  (forall a b, P a -> R a b -> R' a b) ->
  Forall P l -> StronglySorted R l -> StronglySorted R' l.
Proof.
  intros HR HP HS. induction HS as [|a l Hs IH Ha]; [constructor|].
  inversion HP as [|? ? Pa Pl]; subst.
  constructor; [apply IH, Pl|].
  eapply Forall_impl; [|exact Ha]. cbv beta. intros b. apply HR, Pa.
Qed.

(** X3. On a host whose zone has no transitions, every returned slot starts
    on a half hour of the host clock: minute 0 or 30, second 0,
    millisecond 0. *)
Theorem findAvailableSlots_on_half_hours off hc api d s e slots :
  findAvailableSlots (fixedZone off) hc api d s e = Resolved slots ->
  forall slot, In slot slots ->
    let lt := LocalTime (fixedZone off) (slot_start slot) in
    (MinFromTime lt = 0 \/ MinFromTime lt = 30)
    /\ SecFromTime lt = 0 /\ msFromTime lt = 0.
Proof.
  intros H slot Hin. apply findAvailableSlots_resolved in H.
  destruct H as (events & _ & ->).
  destruct (searchSlots_fixedZone off hc events d s e) as [HF _].
  pose proof (proj1 (Forall_forall _ _) HF _ (in_map slot_start _ _ Hin)) as [Ha _].
  cbv zeta. unfold LocalTime. cbn [tzaOfUTC fixedZone].
  revert Ha. generalize (slot_start slot + off). intros lt Ha.
  unfold MinFromTime, SecFromTime, msFromTime, msPerMinute, msPerSecond in *.
  Z.div_mod_to_equations. lia.
Qed.

Lemma findAvailableSlots_on_half_hours_witness :
  let lt := LocalTime (fixedZone (hoursMs 2)) (jan6 + minutesMs 990) in
  (MinFromTime lt = 0 \/ MinFromTime lt = 30)
  /\ SecFromTime lt = 0 /\ msFromTime lt = 0.
Proof.
  apply (findAvailableSlots_on_half_hours (hoursMs 2) H23 (calendarWith [meeting]) 30
           (jan6 + minutesMs 975) (jan6 + minutesMs 1110)
           [mkSlot (jan6 + minutesMs 990) (jan6 + minutesMs 1020) true;
            mkSlot (jan6 + minutesMs 1080) (jan6 + minutesMs 1110) true]
           ltac:(vm_compute; reflexivity)
           (mkSlot (jan6 + minutesMs 990) (jan6 + minutesMs 1020) true)).
  simpl. auto.
Defined.

(** X7. On a host whose zone has no transitions, the starts of the returned
    slots are at least 30 minutes apart; so for a duration of at most 30
    minutes the returned slots do not overlap one another. *)
Theorem findAvailableSlots_half_hour_apart off hc api d s e slots :
  findAvailableSlots (fixedZone off) hc api d s e = Resolved slots ->
  StronglySorted
    (fun a b => slot_start a + 30 * msPerMinute <= slot_start b) slots
  /\ (d <= 30 -> StronglySorted (fun a b => slot_end a <= slot_start b) slots).
Proof.
  intros H. apply findAvailableSlots_resolved in H.
  destruct H as (events & _ & ->).
  destruct (searchSlots_fixedZone off hc events d s e) as [_ HS].
  apply StronglySorted_map_inv in HS. split; [exact HS|].
  intros Hd.
  apply (StronglySorted_weaken
           (fun slot => slot_end slot - slot_start slot = d * 60 * 1000)
           (fun a b => slot_start a + 30 * msPerMinute <= slot_start b));
    [|apply searchSlots_duration|exact HS].
  intros a b Ha Hab. unfold msPerMinute in *. lia.
Qed.

Lemma findAvailableSlots_half_hour_apart_witness :
  StronglySorted (fun a b => slot_end a <= slot_start b)
    [mkSlot (jan6 + minutesMs 990) (jan6 + minutesMs 1020) true;
     mkSlot (jan6 + minutesMs 1080) (jan6 + minutesMs 1110) true].
Proof.
  apply (proj2 (findAvailableSlots_half_hour_apart 0 H23 (calendarWith [meeting]) 30
                  (jan6 + minutesMs 990) (jan6 + minutesMs 1110) _
                  ltac:(vm_compute; reflexivity))).
  lia.
Defined.

Lemma searchSlots_before_end tz hc events d s e :
  Forall (fun slot => slot_start slot < e)
    (availableSlots (searchSlots tz hc events d e s)).
Proof.
  unfold searchSlots.
  apply (whileLoop_invariant tz hc events d e
           (fun st => Forall (fun slot => slot_start slot < e) (availableSlots st)));
    [|constructor].
  intros st HF G. apply guard_true in G. destruct G as [G _].
  destruct (body_slots tz hc events d st) as [B | (B & _)]; rewrite B; [exact HF|].
  apply Forall_app. split; [exact HF|]. constructor; [exact G|constructor].
Qed.

Lemma searchSlots_after_initial tz hc events d s e :
  ForwardZone tz ->
  Forall (fun slot => initialCursor tz s <= slot_start slot)
    (availableSlots (searchSlots tz hc events d e s)).
Proof.
  intros Hz. unfold searchSlots.
  enough (H : (fun st =>
                 (canonical tz (currentDate st)
                  /\ initialCursor tz s <= currentDate st)
                 /\ Forall (fun slot => initialCursor tz s <= slot_start slot)
                      (availableSlots st))
                (whileLoop tz hc events d e (mkState (initialCursor tz s) 0 [])))
    by (cbv beta in H; tauto).
  apply whileLoop_invariant.
  - intros st ((Hcan & Hc) & HF) _.
    destruct (next_cursor_later tz hc (currentDate st) Hz Hcan) as [Hlt Hcan'].
    destruct (body_slots tz hc events d st) as [B | (B & _)]; rewrite B;
      unfold loopBody; cbn [currentDate]; (split; [split; [exact Hcan'|lia]|]).
    + exact HF.
    + apply Forall_app. split; [exact HF|]. constructor; [exact Hc|constructor].
  - cbn [currentDate availableSlots]. split; [split; [|lia]|constructor].
    apply initialCursor_canonical, Hz.
Qed.

(** X4. Every returned slot starts before the end date; and in a host zone
    whose wall clock goes forward it starts at the rounded start cursor or
    later. *)
Theorem findAvailableSlots_start_range tz hc api d s e slots :
  findAvailableSlots tz hc api d s e = Resolved slots ->
  forall slot, In slot slots ->
    slot_start slot < e
    /\ (ForwardZone tz -> initialCursor tz s <= slot_start slot).
Proof.
  intros H slot Hin. apply findAvailableSlots_resolved in H.
  destruct H as (events & _ & ->). split.
  - exact (proj1 (Forall_forall _ _) (searchSlots_before_end tz hc events d s e)
             slot Hin).
  - intros Hz.
    exact (proj1 (Forall_forall _ _) (searchSlots_after_initial tz hc events d s e Hz)
             slot Hin).
Qed.

Lemma findAvailableSlots_start_range_witness :
  ForwardZone losAngeles
  /\ mar9 + hoursMs 12 < mar9 + hoursMs 13
  /\ initialCursor losAngeles (mar9 + minutesMs 450) <= mar9 + hoursMs 12.
Proof.
  pose proof (findAvailableSlots_start_range losAngeles H23 (calendarWith []) 30
                (mar9 + minutesMs 450) (mar9 + hoursMs 13)
                [mkSlot (mar9 + minutesMs 450) (mar9 + hoursMs 8) true;
                 mkSlot (mar9 + hoursMs 12) (mar9 + minutesMs 750) true;
                 mkSlot (mar9 + minutesMs 750) (mar9 + hoursMs 13) true]
                ltac:(vm_compute; reflexivity)
                (mkSlot (mar9 + hoursMs 12) (mar9 + minutesMs 750) true)
                ltac:(simpl; auto)) as [H1 H2].
  split; [exact ZoneFacts.losAngeles_forward|]. split; [exact H1|].
  exact (H2 ZoneFacts.losAngeles_forward).
Defined.

(** X5. On a host whose zone has no transitions, no returned slot starts a
    minute or more before the start date, and none starts before it when the
    start date is on a whole minute of the host clock. *)
Theorem findAvailableSlots_not_before_start off hc api d s e slots :
  findAvailableSlots (fixedZone off) hc api d s e = Resolved slots ->
  forall slot, In slot slots ->
    s - msPerMinute < slot_start slot
    /\ (LocalTime (fixedZone off) s mod msPerMinute = 0 -> s <= slot_start slot).
Proof.
  intros H slot Hin. apply findAvailableSlots_resolved in H.
  destruct H as (events & _ & ->).
  destruct (searchSlots_fixedZone off hc events d s e) as [HF _].
  pose proof (proj1 (Forall_forall _ _) HF _ (in_map slot_start _ _ Hin)) as [_ Hc].
  rewrite Evaluation.initialCursor_fixedZone in Hc. cbv zeta in Hc.
  revert Hc. generalize (slot_start slot). generalize (LocalTime (fixedZone off) s).
  intros lt y Hc. unfold ceilDiv, MinFromTime, msPerMinute in *.
  split; [|intros Hm]; Z.div_mod_to_equations; lia.
Qed.

Lemma findAvailableSlots_not_before_start_witness :
  LocalTime (fixedZone 0) (jan6 + minutesMs 975) mod msPerMinute = 0
  /\ jan6 + minutesMs 975 - msPerMinute < jan6 + minutesMs 990
  /\ jan6 + minutesMs 975 <= jan6 + minutesMs 990.
Proof.
  pose proof (findAvailableSlots_not_before_start 0 H23 (calendarWith [meeting]) 30
                (jan6 + minutesMs 975) (jan6 + minutesMs 1110)
                [mkSlot (jan6 + minutesMs 990) (jan6 + minutesMs 1020) true;
                 mkSlot (jan6 + minutesMs 1080) (jan6 + minutesMs 1110) true]
                ltac:(vm_compute; reflexivity)
                (mkSlot (jan6 + minutesMs 990) (jan6 + minutesMs 1020) true)
                ltac:(simpl; auto)) as [H1 H2].
  assert (Hm : LocalTime (fixedZone 0) (jan6 + minutesMs 975) mod msPerMinute = 0)
    by (vm_compute; reflexivity).
  split; [exact Hm|]. split; [exact H1|exact (H2 Hm)].
Defined.

Lemma findAvailableSlots_window_test_witness :
  schedulingWindowStart <= pacificHourOf H23 (jan6 + minutesMs 990)
  /\ pacificHourOf H23 (jan6 + minutesMs 1020) <= schedulingWindowEnd.
Proof.
  apply (findAvailableSlots_window_test utcZone H23 (calendarWith [meeting]) 30
           (jan6 + minutesMs 990) (jan6 + minutesMs 1110)
           [mkSlot (jan6 + minutesMs 990) (jan6 + minutesMs 1020) true;
            mkSlot (jan6 + minutesMs 1080) (jan6 + minutesMs 1110) true]
           ltac:(vm_compute; reflexivity)
           (mkSlot (jan6 + minutesMs 990) (jan6 + minutesMs 1020) true)).
  simpl. auto.
Defined.

Lemma laOffsetAt_values t : laOffsetAt t = pstOffset \/ laOffsetAt t = pdtOffset.
Proof. unfold laOffsetAt. cbv zeta. destruct (_ && _); auto. Qed.

Lemma hour_after_jump (L k : Z) :
  (HourFromTime L = 0 /\ k = 5) \/ (HourFromTime L < 5 /\ k = 5 - HourFromTime L) ->
  HourFromTime (L - L mod msPerHour + k * msPerHour) = 5
  /\ (L - L mod msPerHour + k * msPerHour) mod msPerHour = 0
  /\ 1 <= k <= 5.
Proof.
  intros Hh. pose proof (HourFromTime_range L) as Hr.
  replace (L - L mod msPerHour + k * msPerHour) with ((L / msPerHour + k) * msPerHour)
    by (unfold msPerHour; Z.div_mod_to_equations; lia).
  split; [|split; [apply Z.mod_mul; unfold msPerHour; lia|lia]].
  unfold HourFromTime in *. rewrite Z.div_mul by (unfold msPerHour; lia).
  revert Hh Hr. generalize (L / msPerHour). intros q Hh Hr.
  Z.div_mod_to_equations. lia.
Qed.

Lemma same_remainder (cur off la : Z) :
  off mod msPerHour = 0 -> la = pstOffset \/ la = pdtOffset ->
  (cur + off) mod msPerHour = (cur + la) mod msPerHour.
Proof.
  unfold pstOffset, pdtOffset, msPerHour. intros Hoff [-> | ->];
    Z.div_mod_to_equations; lia.
Qed.

(** X8. On a host whose offset from UTC is a whole number of hours, a cursor
    whose hour in Los Angeles is outside the window is moved to the next
    05:00:00.000 in Los Angeles, at most five hours later, provided the offset
    of Los Angeles is the same at the cursor and at the target (no
    daylight-saving transition in between). *)
Theorem fastForward_reaches_window_start off hc cur :
  off mod msPerHour = 0 ->
  pacificHourOf hc cur >= schedulingWindowEnd
  \/ pacificHourOf hc cur < schedulingWindowStart ->
  laOffsetAt (fastForward (fixedZone off) hc cur) = laOffsetAt cur ->
  let target := fastForward (fixedZone off) hc cur in
  HourFromTime (LocalTime losAngeles target) = schedulingWindowStart
  /\ LocalTime losAngeles target mod msPerHour = 0
  /\ cur < target <= cur + 5 * msPerHour.
Proof.
  intros Hoff Hout Hla. cbv zeta.
  destruct (fastForward_hours (fixedZone off) hc cur) as [[Hin _] | (k & Hk & E)];
    [unfold schedulingWindowEnd, schedulingWindowStart in *; lia|].
  clear Hout.
  assert (Hh : (HourFromTime (LocalTime losAngeles cur) = 0 /\ k = 5)
               \/ (HourFromTime (LocalTime losAngeles cur) < 5
                   /\ k = 5 - HourFromTime (LocalTime losAngeles cur))).
  { pose proof (HourFromTime_range (LocalTime losAngeles cur)) as Hr.
    revert Hk. unfold pacificHourOf. cbv zeta.
    generalize (HourFromTime (LocalTime losAngeles cur)) Hr. intros h Hr'.
    destruct hc; [lia|]. destruct (Z.eqb_spec h 0); lia. }
  clear Hk. apply hour_after_jump in Hh. destruct Hh as (H1 & H2 & H3).
  assert (Ht : fastForward (fixedZone off) hc cur
               = cur - (cur + off) mod msPerHour + k * msPerHour).
  { rewrite E. unfold UTC, LocalTime. cbn [tzaOfUTC tzaOfLocal fixedZone]. lia. }
  assert (HL : LocalTime losAngeles (fastForward (fixedZone off) hc cur)
               = LocalTime losAngeles cur
                 - LocalTime losAngeles cur mod msPerHour + k * msPerHour).
  { unfold LocalTime. cbn [tzaOfUTC losAngeles]. rewrite Hla, Ht.
    rewrite (same_remainder cur off (laOffsetAt cur) Hoff (laOffsetAt_values cur)).
    lia. }
  rewrite HL. split; [exact H1|]. split; [exact H2|].
  rewrite Ht.
  pose proof (Z.mod_pos_bound (cur + off) msPerHour ltac:(unfold msPerHour; lia)) as Hm.
  revert Hm. generalize ((cur + off) mod msPerHour). unfold msPerHour. intros r Hm. lia.
Qed.

Lemma fastForward_reaches_window_start_witness :
  hoursMs 2 mod msPerHour = 0
  /\ pacificHourOf H23 (jan6 + hoursMs 8) < schedulingWindowStart
  /\ fastForward (fixedZone (hoursMs 2)) H23 (jan6 + hoursMs 8) = jan6 + hoursMs 13
  /\ HourFromTime
       (LocalTime losAngeles (fastForward (fixedZone (hoursMs 2)) H23 (jan6 + hoursMs 8)))
     = schedulingWindowStart.
Proof.
  assert (H1 : hoursMs 2 mod msPerHour = 0) by (vm_compute; reflexivity).
  assert (H2 : pacificHourOf H23 (jan6 + hoursMs 8) < schedulingWindowStart)
    by (vm_compute; reflexivity).
  split; [exact H1|]. split; [exact H2|]. split; [vm_compute; reflexivity|].
  exact (proj1 (fastForward_reaches_window_start (hoursMs 2) H23 (jan6 + hoursMs 8)
                  H1 (or_intror H2) ltac:(vm_compute; reflexivity))).
Defined.

End SlotFacts.

(** ** More on the scheduling flow *)

Module FlowFacts.

Import LoopFacts CalendarFacts SlotFacts.

Lemma searchSlots_pushed tz hc events d s e :
  Forall (fun slot =>
            isFree events slot = true
            /\ schedulingWindowStart <= pacificHourOf hc (slot_start slot))
    (availableSlots (searchSlots tz hc events d e s)).
Proof.
  unfold searchSlots. apply slots_forall; [|constructor].
  intros cur slotEnd W C. unfold isFree. cbn [slot_start slot_end].
  subst slotEnd. rewrite C. split; [reflexivity|].
  unfold isWithinSchedulingWindow in W. apply andb_true_iff in W.
  destruct W as [W _]. apply Z.geb_le in W. exact W.
Qed.

(** X9. What a successful flow has booked: the event was created with the
    start and end of a slot that lasts the task's duration (60 minutes when
    the estimate is missing or 0), starts before the search end at an hour
    that reads 5 or more, and overlaps none of the events fetched for the
    search range. *)
Theorem createAndScheduleTask_books_free_slot rt task booking :
  createAndScheduleTask rt task = Resolved booking ->
  exists events selectedSlot,
    getEvents (calendar rt) (searchStartDate (now rt) task)
      (searchEndDate (now rt) task) = Resolved events
    /\ createEvent (calendar rt) (title task) (descriptionOf task)
         (slot_start selectedSlot) (slot_end selectedSlot)
       = Resolved (eventId booking, eventLink booking)
    /\ slot_end selectedSlot - slot_start selectedSlot = durationOf task * 60 * 1000
    /\ slot_start selectedSlot < searchEndDate (now rt) task
    /\ schedulingWindowStart
       <= pacificHourOf (hourCycle rt) (slot_start selectedSlot)
    /\ (forall event, In event events ->
          ~ (slot_start selectedSlot < event_end event
             /\ slot_end selectedSlot > event_start event)).
Proof.
  unfold createAndScheduleTask.
  destruct (isAuthenticated (calendar rt)); cbn [negb]; [|discriminate].
  cbv zeta.
  destruct (findAvailableSlots (hostZone rt) (hourCycle rt) (calendar rt)
              (durationOf task) (searchStartDate (now rt) task)
              (searchEndDate (now rt) task)) as [slots|m] eqn:Hsearch;
    cbn [bind]; [|discriminate].
  destruct slots as [|selectedSlot rest]; [discriminate|].
  destruct (createEvent (calendar rt) (title task) (descriptionOf task)
              (slot_start selectedSlot) (slot_end selectedSlot))
    as [[id link]|m] eqn:Hcreate; cbn [bind fst snd]; [|discriminate].
  intros H. injection H as <-. cbn [eventId eventLink].
  apply findAvailableSlots_resolved in Hsearch.
  destruct Hsearch as (events & Hev & Hslots).
  exists events, selectedSlot.
  assert (Hin : In selectedSlot
                  (availableSlots
                     (searchSlots (hostZone rt) (hourCycle rt) events
                        (durationOf task) (searchEndDate (now rt) task)
                        (searchStartDate (now rt) task))))
    by (rewrite <- Hslots; left; reflexivity).
  pose proof (proj1 (Forall_forall _ _) (searchSlots_duration _ _ _ _ _ _) _ Hin) as Hd.
  pose proof (proj1 (Forall_forall _ _) (searchSlots_before_end _ _ _ _ _ _) _ Hin) as Hb.
  pose proof (proj1 (Forall_forall _ _) (searchSlots_pushed _ _ _ _ _ _) _ Hin)
    as [Hfree Hw].
  cbv beta in Hd, Hb.
  repeat (split; [assumption|]).
  unfold isFree in Hfree. apply negb_true_iff in Hfree.
  exact (hasConflict_false _ _ _ Hfree).
Qed.

Lemma createAndScheduleTask_books_free_slot_witness :
  createAndScheduleTask (runtimeAt (calendarWith [afternoon])) urgentReport
  = Resolved
      (mkResult
         ("Task " ++ quote ++ "Write report" ++ quote
          ++ " scheduled for Mon, Jan 6, 2:00 AM (60 minutes)" ++ newline ++ newline
          ++ "View event: https://calendar.example/1")
         "event-1" "https://calendar.example/1")
  /\ exists events selectedSlot,
       getEvents (calendarWith [afternoon]) jan6 (jan6 + hoursMs 168)
       = Resolved events
       /\ slot_end selectedSlot - slot_start selectedSlot = 60 * 60 * 1000.
Proof.
  assert (H : createAndScheduleTask (runtimeAt (calendarWith [afternoon])) urgentReport
              = Resolved
                  (mkResult
                     ("Task " ++ quote ++ "Write report" ++ quote
                      ++ " scheduled for Mon, Jan 6, 2:00 AM (60 minutes)"
                      ++ newline ++ newline
                      ++ "View event: https://calendar.example/1")
                     "event-1" "https://calendar.example/1"))
    by (vm_compute; reflexivity).
  split; [exact H|].
  destruct (createAndScheduleTask_books_free_slot _ _ _ H)
    as (events & selectedSlot & Hev & _ & Hd & _).
  exists events, selectedSlot. split; [exact Hev|exact Hd].
Defined.

(** X10. The failures of the flow.  When the client holds no token it throws
    "Calendar not authenticated", whatever the calendar would answer.  It
    throws a message exactly in these cases: that one; or, with a token, the
    fetch of the events threw the message; or the search resolved with no
    slot and the message is "No available time slots found in the specified
    time range"; or the search resolved with slots and the creation of the
    event for the first of them threw the message. *)
Theorem createAndScheduleTask_failures rt task :
  (isAuthenticated (calendar rt) = false ->
   createAndScheduleTask rt task = Threw notAuthenticated)
  /\ forall m,
       createAndScheduleTask rt task = Threw m
       <-> (isAuthenticated (calendar rt) = false /\ m = notAuthenticated)
           \/ (isAuthenticated (calendar rt) = true
               /\ (getEvents (calendar rt) (searchStartDate (now rt) task)
                     (searchEndDate (now rt) task) = Threw m
                   \/ (findAvailableSlots (hostZone rt) (hourCycle rt) (calendar rt)
                         (durationOf task) (searchStartDate (now rt) task)
                         (searchEndDate (now rt) task) = Resolved []
                       /\ m = noSlotsFound)
                   \/ exists selectedSlot rest,
                        findAvailableSlots (hostZone rt) (hourCycle rt) (calendar rt)
                          (durationOf task) (searchStartDate (now rt) task)
                          (searchEndDate (now rt) task)
                        = Resolved (selectedSlot :: rest)
                        /\ createEvent (calendar rt) (title task) (descriptionOf task)
                             (slot_start selectedSlot) (slot_end selectedSlot)
                           = Threw m)).
Proof.
  split.
  - intros Hauth. unfold createAndScheduleTask. rewrite Hauth. reflexivity.
  - intros m. unfold createAndScheduleTask.
    destruct (isAuthenticated (calendar rt)); cbn [negb].
    + cbv zeta.
      assert (Hfetch : forall m',
                 getEvents (calendar rt) (searchStartDate (now rt) task)
                   (searchEndDate (now rt) task) = Threw m'
                 <-> findAvailableSlots (hostZone rt) (hourCycle rt) (calendar rt)
                       (durationOf task) (searchStartDate (now rt) task)
                       (searchEndDate (now rt) task) = Threw m').
      { intros m'. unfold findAvailableSlots.
        destruct (getEvents (calendar rt) (searchStartDate (now rt) task)
                    (searchEndDate (now rt) task)); cbn [bind]; split; congruence. }
      destruct (findAvailableSlots (hostZone rt) (hourCycle rt) (calendar rt)
                  (durationOf task) (searchStartDate (now rt) task)
                  (searchEndDate (now rt) task)) as [slots|m'] eqn:Hsearch;
        cbn [bind].
      * destruct slots as [|selectedSlot rest].
        -- split.
           ++ intros H. right. split; [reflexivity|]. right. left.
              split; [reflexivity|congruence].
           ++ intros [[Ha _] | [_ [Hf | [[_ ->] | (sel & rest & Hs & _)]]]];
                try discriminate; [|reflexivity].
              apply Hfetch in Hf. discriminate.
        -- destruct (createEvent (calendar rt) (title task) (descriptionOf task)
                       (slot_start selectedSlot) (slot_end selectedSlot))
             as [[id link]|m''] eqn:Hcreate; cbn [bind].
           ++ split; [discriminate|].
              intros [[Ha _] | [_ [Hf | [[Hs _] | (sel & rest' & Hs & Hc)]]]];
                try discriminate.
              ** apply Hfetch in Hf. discriminate.
              ** injection Hs as <- <-. congruence.
           ++ split.
              ** intros H. injection H as ->. right. split; [reflexivity|].
                 right. right. exists selectedSlot, rest. auto.
              ** intros [[Ha _] | [_ [Hf | [[Hs _] | (sel & rest' & Hs & Hc)]]]];
                   try discriminate.
                 --- apply Hfetch in Hf. discriminate.
                 --- injection Hs as <- <-. congruence.
      * split.
        -- intros H. injection H as ->. right. split; [reflexivity|]. left.
           apply Hfetch. reflexivity.
        -- intros [[Ha _] | [_ [Hf | [[Hs _] | (sel & rest' & Hs & _)]]]];
             try discriminate.
           apply Hfetch in Hf. congruence.
    + split.
      * intros H. left. split; [reflexivity|congruence].
      * intros [[_ ->] | [Ha _]]; [reflexivity|discriminate].
Qed.

Lemma createAndScheduleTask_failures_witness :
  isAuthenticated (calendar (runtimeAt signedOut)) = false
  /\ createAndScheduleTask (runtimeAt signedOut) report = Threw notAuthenticated.
Proof.
  assert (H : isAuthenticated (calendar (runtimeAt signedOut)) = false) by reflexivity.
  split; [exact H|].
  exact (proj1 (createAndScheduleTask_failures (runtimeAt signedOut) report) H).
Defined.

End FlowFacts.

(** ** The command in the assistant's message *)

Module StringFacts.

Lemma prefix_split (p s : string) :
  prefix p s = true -> s = (p ++ dropChars (String.length p) s)%string.
Proof.
  revert s. induction p as [|a p IH]; intros s H; [reflexivity|].
  destruct s as [|b s]; [discriminate|]. cbn [prefix] in H.
  destruct (Ascii.ascii_dec a b) as [->|]; [|discriminate].
  cbn [String.length dropChars append]. f_equal. apply IH, H.
Qed.

Lemma prefix_append (p s : string) : prefix p (p ++ s) = true.
Proof.
  induction p as [|a p IH]; cbn [append prefix]; [destruct s; reflexivity|].
  destruct (Ascii.ascii_dec a a); [exact IH|congruence].
Qed.

Lemma append_assoc (a b c : string) : ((a ++ b) ++ c = a ++ (b ++ c))%string.
Proof. induction a as [|x a IH]; cbn [append]; [reflexivity|f_equal; exact IH]. Qed.

Lemma lazyUntilBrace_shape s body post :
  lazyUntilBrace s = Some (body, post) ->
  s = (body ++ String closingBrace post)%string
  /\ Forall (fun c => c <> closingBrace /\ c <> LF /\ c <> CR)
       (list_ascii_of_string body).
Proof.
  revert body post. induction s as [|c s IH]; intros body post H; [discriminate|].
  cbn [lazyUntilBrace] in H.
  destruct (Ascii.eqb_spec c closingBrace) as [->|Hc].
  - injection H as <- <-. split; [reflexivity|constructor].
  - destruct (lineTerminatorAt (String c s)) eqn:T; [discriminate|].
    destruct (lazyUntilBrace s) as [[body' post']|]; [|discriminate].
    injection H as <- <-.
    destruct (IH body' post' eq_refl) as [-> HF].
    split; [reflexivity|]. cbn [list_ascii_of_string]. constructor; [|exact HF].
    cbn [lineTerminatorAt] in T.
    apply orb_false_iff in T. destruct T as [T _].
    apply orb_false_iff in T. destruct T as [T _].
    apply orb_false_iff in T. destruct T as [T1 T2].
    split; [exact Hc|].
    split; intros ->; [rewrite Ascii.eqb_refl in T1|rewrite Ascii.eqb_refl in T2];
      discriminate.
Qed.

Lemma matchAt_shape s capture post :
  matchAt s = Some (capture, post) ->
  exists body,
    s = (commandTag ++ capture ++ post)%string
    /\ capture = ("{" ++ body ++ "}")%string
    /\ Forall (fun c => c <> closingBrace /\ c <> LF /\ c <> CR)
         (list_ascii_of_string body).
Proof.
  unfold matchAt. destruct (prefix (commandTag ++ "{") s) eqn:P; [|discriminate].
  apply prefix_split in P.
  destruct (lazyUntilBrace _) as [[body post']|] eqn:L; [|discriminate].
  intros H. injection H as <- <-. exists body.
  apply lazyUntilBrace_shape in L. destruct L as [L HF].
  split; [|split; [reflexivity|exact HF]].
  rewrite P at 1. rewrite L. unfold commandTag.
  cbn [append]. rewrite append_assoc. reflexivity.
Qed.

Lemma includes_append (p pre rest : string) :
  includes p (pre ++ p ++ rest) = true.
Proof.
  induction pre as [|c pre IH]; cbn [append].
  - destruct (p ++ rest)%string eqn:E; cbn [includes]; rewrite <- E;
      rewrite prefix_append; reflexivity.
  - cbn [includes]. rewrite IH. apply orb_true_r.
Qed.

(** X14. When the assistant's message matches the command pattern, the message
    is the text before the match, "SCHEDULE_TASK:", the captured group and the
    text after it; the captured group is an opening brace, a run without
    closing brace, line feed or carriage return, and a closing brace (so it
    ends at the first closing brace after the tag and is on one line); the
    message contains the tag; and removing the command leaves the text before
    and the text after the match. *)
Theorem matchCommand_shape s pre capture post :
  matchCommand s = Some (pre, capture, post) ->
  s = (pre ++ commandTag ++ capture ++ post)%string
  /\ (exists body,
        capture = ("{" ++ body ++ "}")%string
        /\ Forall (fun c => c <> closingBrace /\ c <> LF /\ c <> CR)
             (list_ascii_of_string body))
  /\ includes commandTag s = true
  /\ removeCommand s = (pre ++ post)%string.
Proof.
  intros H.
  assert (Hs : s = (pre ++ commandTag ++ capture ++ post)%string
               /\ exists body,
                    capture = ("{" ++ body ++ "}")%string
                    /\ Forall (fun c => c <> closingBrace /\ c <> LF /\ c <> CR)
                         (list_ascii_of_string body)).
  { revert pre H. induction s as [|c s IH]; intros pre H.
    - cbn [matchCommand] in H.
      destruct (matchAt EmptyString) as [[cap po]|] eqn:M; [|discriminate].
      injection H as <- <- <-. apply matchAt_shape in M.
      destruct M as (body & M1 & M2 & M3). split; [exact M1|]. exists body. auto.
    - cbn [matchCommand] in H.
      destruct (matchAt (String c s)) as [[cap po]|] eqn:M.
      + injection H as <- <- <-. apply matchAt_shape in M.
        destruct M as (body & M1 & M2 & M3). split; [exact M1|]. exists body. auto.
      + destruct (matchCommand s) as [[[pre' cap'] post']|]; [|discriminate].
        injection H as <- <- <-.
        destruct (IH pre' eq_refl) as [E Hb]. split; [|exact Hb].
        cbn [append]. f_equal. exact E. }
  destruct Hs as [Hs Hb]. split; [exact Hs|]. split; [exact Hb|]. split.
  - rewrite Hs. apply includes_append.
  - unfold removeCommand. rewrite H. reflexivity.
Qed.

Lemma matchCommand_shape_witness :
  matchCommand commandReply
  = Some ("Got it! ", "{report}", " I have scheduled it.")%string
  /\ removeCommand commandReply = "Got it!  I have scheduled it."%string.
Proof.
  assert (H : matchCommand commandReply
              = Some ("Got it! ", "{report}", " I have scheduled it.")%string)
    by (vm_compute; reflexivity).
  split; [exact H|].
  exact (proj2 (proj2 (proj2 (matchCommand_shape _ _ _ _ H)))).
Defined.

End StringFacts.

(** ** The chat histories *)

Module ChatFacts.

(** What [processMessage] leaves, by the outcome of the model. *)
Lemma processMessage_appends engine rt sentAt repliedAt st m :
  let (st', outcome) := processMessage engine rt sentAt repliedAt st m in
  (exists reply,
     outcome = Resolved reply
     /\ chatHistory st'
        = chatHistory st ++ [mkChat user m sentAt; mkChat assistant reply repliedAt]
     /\ conversationHistory st'
        = conversationHistory st ++ [HumanMessage m; AIMessage reply])
  \/ (exists e,
        outcome = Threw e
        /\ llmInvoke engine (conversationHistory st ++ [HumanMessage m]) = Threw e
        /\ chatHistory st' = chatHistory st ++ [mkChat user m sentAt]
        /\ conversationHistory st' = conversationHistory st ++ [HumanMessage m]
        /\ tokenUsageStats st' = tokenUsageStats st).
Proof.
  unfold processMessage. cbv zeta.
  destruct (llmInvoke engine (conversationHistory st ++ [HumanMessage m]))
    as [response|e] eqn:L.
  - left. eexists. split; [reflexivity|].
    cbn [chatHistory conversationHistory]. rewrite <- !app_assoc. split; reflexivity.
  - right. exists e. cbn [chatHistory conversationHistory tokenUsageStats]. auto 6.
Qed.

(** X11. What a chat request does to the histories.  Without a message, or
    with an empty one, the answer is 400 and the state is unchanged.  With a
    message, when the model answers, the answer is the assistant's reply (the
    model's text after the command in it, if any, has been carried out, also
    when that failed), and the user's message and the reply have been
    appended, in this order, to the chat history and to the conversation.
    When the call of the model throws, the answer is 500 and the user's
    message stays recorded in both histories without a reply. *)
Theorem postChat_histories engine rt sentAt repliedAt st :
  (forall message,
      message = None \/ message = Some EmptyString ->
      postChat engine rt sentAt repliedAt st message
      = (st, ChatError 400 "Message is required"))
  /\ (forall m response,
        m <> EmptyString ->
        llmInvoke engine (conversationHistory st ++ [HumanMessage m])
        = Resolved response ->
        let reply := scheduleFromReply engine rt (response_content response) in
        postChat engine rt sentAt repliedAt st (Some m)
        = (mkAgent (conversationHistory st ++ [HumanMessage m; AIMessage reply])
             (chatHistory st
              ++ [mkChat user m sentAt; mkChat assistant reply repliedAt])
             (trackUsage (tokenUsageStats st) response),
           ChatOk reply))
  /\ (forall m e,
        m <> EmptyString ->
        llmInvoke engine (conversationHistory st ++ [HumanMessage m]) = Threw e ->
        postChat engine rt sentAt repliedAt st (Some m)
        = (mkAgent (conversationHistory st ++ [HumanMessage m])
             (chatHistory st ++ [mkChat user m sentAt])
             (tokenUsageStats st),
           ChatError 500 "Failed to process message")).
Proof.
  split; [|split].
  - intros message [-> | ->]; reflexivity.
  - intros m response Hm Hl. cbv zeta. unfold postChat.
    destruct m as [|c m]; [congruence|]. cbn [String.length Nat.eqb].
    unfold processMessage. cbv zeta. rewrite Hl. rewrite <- !app_assoc. reflexivity.
  - intros m e Hm Hl. unfold postChat.
    destruct m as [|c m]; [congruence|]. cbn [String.length Nat.eqb].
    unfold processMessage. cbv zeta. rewrite Hl. reflexivity.
Qed.

Lemma postChat_histories_witness :
  "Plan my week"%string <> EmptyString
  /\ postChat offlineEngine (runtimeAt signedOut) 1 2 (newAgent "system") None
     = (newAgent "system", ChatError 400 "Message is required")
  /\ postChat offlineEngine (runtimeAt signedOut) 1 2 (newAgent "system")
       (Some "Plan my week"%string)
     = (mkAgent [SystemMessage "system"; HumanMessage "Plan my week"]
          [mkChat user "Plan my week" 1] (mkStats 0 0 0 0),
        ChatError 500 "Failed to process message")
  /\ snd (postChat scriptedEngine (runtimeAt signedOut) 1 2 (newAgent "system")
            (Some "Plan my week"%string))
     = ChatOk (scheduleFromReply scriptedEngine (runtimeAt signedOut) commandReply).
Proof.
  assert (Hm : "Plan my week"%string <> EmptyString) by discriminate.
  pose proof (postChat_histories offlineEngine (runtimeAt signedOut) 1 2
                (newAgent "system")) as (H400 & _ & H500).
  pose proof (postChat_histories scriptedEngine (runtimeAt signedOut) 1 2
                (newAgent "system")) as (_ & H200 & _).
  split; [exact Hm|]. split; [exact (H400 None (or_introl eq_refl))|]. split.
  - exact (H500 "Plan my week"%string "ECONNREFUSED"%string Hm eq_refl).
  - rewrite (H200 "Plan my week"%string (mkResponse commandReply None) Hm eq_refl).
    reflexivity.
Defined.

Lemma handle_paired engine st request :
  (exists prompt,
     conversationHistory st = SystemMessage prompt :: map asBaseMessage (chatHistory st)) ->
  conversationHistory (handle engine st request)
  = match hd_error (conversationHistory st) with
    | Some m => m :: map asBaseMessage (chatHistory (handle engine st request))
    | None => []
    end.
Proof.
  intros (prompt & Hc). destruct request as [rt sentAt repliedAt message|].
  - cbn [handle]. unfold postChat.
    destruct message as [m|]; cbn [fst]; [|rewrite Hc; reflexivity].
    destruct (String.length m =? 0)%nat; cbn [fst]; [rewrite Hc; reflexivity|].
    pose proof (processMessage_appends engine rt sentAt repliedAt st m) as H.
    destruct (processMessage engine rt sentAt repliedAt st m) as [st' outcome].
    destruct H as [(reply & -> & Hch & Hco) | (e & -> & _ & Hch & Hco & _)];
      cbn [fst]; rewrite Hco, Hch, Hc; cbn [app hd_error]; rewrite map_app;
      reflexivity.
  - cbn [handle]. unfold clearHistory. cbv zeta. rewrite Hc.
    cbn [hd_error conversationHistory chatHistory map]. reflexivity.
Qed.

(** X12. Through every session of chat requests and history deletions, from
    the state the constructor leaves: the conversation is the system message
    of the constructor followed by one entry per chat entry (a human message
    for a user entry, an AI message for an assistant entry, with the same
    text); and right after a deletion the conversation holds the system
    message alone and the chat history is empty. *)
Theorem session_histories_paired engine systemPrompt requests :
  let st := session engine (newAgent systemPrompt) requests in
  conversationHistory st
  = SystemMessage systemPrompt :: map asBaseMessage (chatHistory st)
  /\ conversationHistory (clearHistory st) = [SystemMessage systemPrompt]
  /\ getHistory (clearHistory st) = [].
Proof.
  cbv zeta. unfold session.
  assert (H : conversationHistory (newAgent systemPrompt)
              = SystemMessage systemPrompt
                :: map asBaseMessage (chatHistory (newAgent systemPrompt)))
    by reflexivity.
  revert H. generalize (newAgent systemPrompt).
  induction requests as [|request requests IH]; intros st H; cbn [fold_left].
  - split; [exact H|]. unfold clearHistory, getHistory. cbv zeta. rewrite H.
    split; reflexivity.
  - apply IH.
    rewrite (handle_paired engine st request (ex_intro _ systemPrompt H)), H.
    reflexivity.
Qed.

Lemma trackUsage_count stats response :
  requestCount stats <= requestCount (trackUsage stats response)
    <= requestCount stats + 1.
Proof.
  unfold trackUsage. destruct (response_tokenUsage response);
    cbn [requestCount]; lia.
Qed.

Lemma handle_count engine st request :
  requestCount (tokenUsageStats st)
  <= requestCount (tokenUsageStats (handle engine st request))
  <= requestCount (tokenUsageStats st)
     + match request with
       | PostChat _ _ _ _ => 1
       | DeleteHistory => 0
       end.
Proof.
  destruct request as [rt sentAt repliedAt message|]; cbn [handle].
  - unfold postChat. destruct message as [m|]; cbn [fst]; [|lia].
    destruct (String.length m =? 0)%nat; cbn [fst]; [lia|].
    unfold processMessage. cbv zeta.
    destruct (llmInvoke engine _) as [response|e]; cbn [fst tokenUsageStats]; [|lia].
    apply trackUsage_count.
  - unfold clearHistory. cbn [tokenUsageStats]. lia.
Qed.

(** X13. The request counter of the token statistics counts answers of the
    model that carry usage data: through a session it never decreases, a
    deletion of the history leaves the statistics as they are, and at the end
    the counter is at most the number of requests. *)
Theorem session_request_count engine st requests :
  requestCount (tokenUsageStats st)
  <= requestCount (tokenUsageStats (session engine st requests))
  <= requestCount (tokenUsageStats st) + Z.of_nat (List.length requests)
  /\ tokenUsageStats (clearHistory st) = tokenUsageStats st.
Proof.
  split; [|reflexivity]. unfold session. revert st.
  induction requests as [|request requests IH]; intros st; cbn [fold_left].
  - cbn [List.length]. lia.
  - pose proof (handle_count engine st request) as H.
    pose proof (IH (handle engine st request)) as H'.
    cbn [List.length]. destruct request; lia.
Qed.

End ChatFacts.

(** ** The port search *)

Module ServerFacts.

Lemma tryPorts_found isPortAvailable (attempts : nat) :
  forall port found,
    tryPorts isPortAvailable port attempts = Resolved (Some found)
    <-> port <= found < port + Z.of_nat attempts
        /\ isPortAvailable found = Resolved true
        /\ forall p, port <= p < found -> isPortAvailable p = Resolved false.
Proof.
  induction attempts as [|n IH]; intros port found; cbn [tryPorts].
  - split; [discriminate|lia].
  - destruct (isPortAvailable port) as [[|]|e] eqn:A; cbn [bind].
    + split.
      * intros H. injection H as <-. repeat split; [lia|lia|exact A|]. intros p Hp. lia.
      * intros (Hr & Hf & Hlow).
        destruct (Z.eq_dec port found) as [->|Hne]; [reflexivity|].
        rewrite (Hlow port) in A by lia. discriminate.
    + rewrite IH. split.
      * intros (Hr & Hf & Hlow). repeat split; [lia|lia|exact Hf|].
        intros p Hp. destruct (Z.eq_dec p port) as [->|]; [exact A|]. apply Hlow. lia.
      * intros (Hr & Hf & Hlow).
        assert (port <> found) by congruence.
        repeat split; [lia|lia|exact Hf|]. intros p Hp. apply Hlow. lia.
    + split; [discriminate|]. intros (Hr & Hf & Hlow).
      destruct (Z.eq_dec port found) as [->|Hne]; [congruence|].
      rewrite (Hlow port) in A by lia. discriminate.
Qed.

Lemma tryPorts_none isPortAvailable (attempts : nat) :
  forall port,
    tryPorts isPortAvailable port attempts = Resolved None
    <-> forall p, port <= p < port + Z.of_nat attempts ->
                  isPortAvailable p = Resolved false.
Proof.
  induction attempts as [|n IH]; intros port; cbn [tryPorts].
  - split; [intros _ p Hp; lia|reflexivity].
  - destruct (isPortAvailable port) as [[|]|e] eqn:A; cbn [bind].
    + split; [discriminate|]. intros H. rewrite (H port) in A by lia. discriminate.
    + rewrite IH. split.
      * intros H p Hp. destruct (Z.eq_dec p port) as [->|]; [exact A|]. apply H. lia.
      * intros H p Hp. apply H. lia.
    + split; [discriminate|]. intros H. rewrite (H port) in A by lia. discriminate.
Qed.

Lemma tryPorts_threw isPortAvailable (attempts : nat) :
  forall port m,
    tryPorts isPortAvailable port attempts = Threw m
    <-> exists failed,
          port <= failed < port + Z.of_nat attempts
          /\ isPortAvailable failed = Threw m
          /\ forall p, port <= p < failed -> isPortAvailable p = Resolved false.
Proof.
  induction attempts as [|n IH]; intros port m; cbn [tryPorts].
  - split; [discriminate|]. intros (failed & Hr & _). lia.
  - destruct (isPortAvailable port) as [[|]|e] eqn:A; cbn [bind].
    + split; [discriminate|]. intros (failed & Hr & Hf & Hlow).
      destruct (Z.eq_dec port failed) as [->|Hne]; [congruence|].
      rewrite (Hlow port) in A by lia. discriminate.
    + rewrite IH. split.
      * intros (failed & Hr & Hf & Hlow). exists failed.
        repeat split; [lia|lia|exact Hf|].
        intros p Hp. destruct (Z.eq_dec p port) as [->|]; [exact A|]. apply Hlow. lia.
      * intros (failed & Hr & Hf & Hlow).
        assert (port <> failed) by congruence.
        exists failed. repeat split; [lia|lia|exact Hf|]. intros p Hp. apply Hlow. lia.
    + split.
      * intros H. injection H as ->. exists port.
        repeat split; [lia|lia|exact A|]. intros p Hp. lia.
      * intros (failed & Hr & Hf & Hlow).
        destruct (Z.eq_dec port failed) as [->|Hne]; [congruence|].
        rewrite (Hlow port) in A by lia. discriminate.
Qed.

(** X15. The port search resolves with a port exactly when that port is the
    first available one among [startPort], ..., [startPort + maxAttempts - 1]:
    it is in that range, its probe resolved with true, and the probe of every
    lower port of the range resolved with false. *)
Theorem findAvailablePort_first isPortAvailable startPort maxAttempts port :
  findAvailablePort isPortAvailable startPort maxAttempts = Resolved port
  <-> startPort <= port < startPort + maxAttempts
      /\ isPortAvailable port = Resolved true
      /\ forall p, startPort <= p < port -> isPortAvailable p = Resolved false.
Proof.
  assert (H : findAvailablePort isPortAvailable startPort maxAttempts = Resolved port
              <-> tryPorts isPortAvailable startPort (Z.to_nat maxAttempts)
                  = Resolved (Some port)).
  { unfold findAvailablePort.
    destruct (tryPorts isPortAvailable startPort (Z.to_nat maxAttempts)) as [[found|]|e];
      cbn [bind]; split; congruence. }
  rewrite H, tryPorts_found. split; intros (Hr & Hf & Hl); repeat split;
    try assumption; lia.
Qed.

Lemma findAvailablePort_first_witness :
  findAvailablePort portFree 3000 MAX_PORT_ATTEMPTS = Resolved 3002
  /\ 3000 <= 3002 < 3000 + MAX_PORT_ATTEMPTS
  /\ portFree 3002 = Resolved true.
Proof.
  assert (H : findAvailablePort portFree 3000 MAX_PORT_ATTEMPTS = Resolved 3002)
    by reflexivity.
  split; [exact H|].
  destruct (proj1 (findAvailablePort_first portFree 3000 MAX_PORT_ATTEMPTS 3002) H)
    as (Hr & Hf & _).
  split; [exact Hr|exact Hf].
Defined.

(** X16. For safe integers [startPort], [maxAttempts] and
    [startPort + maxAttempts - 1], the port search throws exactly in two cases:
    the probe of a port of the range rejected after the probes of all lower
    ports of the range resolved with false, and then the search throws what
    that probe threw; or the probes of all ports of the range resolved with
    false (always so when [maxAttempts] is 0 or less), and then the message is
    "Could not find an available port after N attempts (tried A-B)" with
    N = maxAttempts, A = startPort and B = startPort + maxAttempts - 1. *)
Theorem findAvailablePort_failures isPortAvailable startPort maxAttempts m :
  safeInteger startPort -> safeInteger maxAttempts ->
  safeInteger (startPort + maxAttempts - 1) ->
  findAvailablePort isPortAvailable startPort maxAttempts = Threw m
  <-> (exists failed,
         startPort <= failed < startPort + maxAttempts
         /\ isPortAvailable failed = Threw m
         /\ forall p, startPort <= p < failed -> isPortAvailable p = Resolved false)
      \/ ((forall p, startPort <= p < startPort + maxAttempts ->
                     isPortAvailable p = Resolved false)
          /\ m = noPortMessage startPort maxAttempts).
Proof.
  intros _ _ _.
  pose proof (tryPorts_threw isPortAvailable (Z.to_nat maxAttempts) startPort m) as Ht.
  pose proof (tryPorts_none isPortAvailable (Z.to_nat maxAttempts) startPort) as Hn.
  pose proof (tryPorts_found isPortAvailable (Z.to_nat maxAttempts) startPort) as Hf.
  unfold findAvailablePort.
  destruct (tryPorts isPortAvailable startPort (Z.to_nat maxAttempts))
    as [[found|]|e]; cbn [bind].
  - split; [discriminate|]. intros H. exfalso.
    destruct (proj1 (Hf found) eq_refl) as (Hr & Hav & Hlow).
    destruct H as [(failed & Hr' & Hth & Hlow') | (Hall & _)].
    + destruct (Z.lt_trichotomy failed found) as [Hlt | [-> | Hgt]].
      * rewrite (Hlow failed) in Hth by lia. discriminate.
      * congruence.
      * rewrite (Hlow' found) in Hav by lia. discriminate.
    + rewrite (Hall found) in Hav by lia. discriminate.
  - split.
    + intros H. injection H as <-. right. split; [|reflexivity].
      intros p Hp. apply (proj1 Hn eq_refl). lia.
    + intros [(failed & Hr & Hth & _) | (_ & ->)]; [|reflexivity]. exfalso.
      rewrite (proj1 Hn eq_refl failed) in Hth by lia. discriminate.
  - split.
    + intros H. injection H as ->. left.
      destruct (proj1 Ht eq_refl) as (failed & Hr & Hth & Hlow).
      exists failed. repeat split; try assumption; lia.
    + intros [(failed & Hr & Hth & Hlow) | (Hall & _)].
      * assert (E : @Threw (option Z) e = Threw m)
          by (apply Ht; exists failed; repeat split; try assumption; lia).
        congruence.
      * exfalso.
        assert (E : @Threw (option Z) e = Resolved None)
          by (apply Hn; intros p Hp; apply Hall; lia).
        discriminate.
Qed.

Lemma findAvailablePort_failures_witness :
  safeInteger 65535 /\ safeInteger MAX_PORT_ATTEMPTS
  /\ findAvailablePort portFree 65535 MAX_PORT_ATTEMPTS = Threw "ERR_SOCKET_BAD_PORT"
  /\ findAvailablePort portFree 3000 2
     = Threw "Could not find an available port after 2 attempts (tried 3000-3001)".
Proof.
  assert (S1 : safeInteger 65535) by (unfold safeInteger; lia).
  assert (S2 : safeInteger MAX_PORT_ATTEMPTS) by (unfold safeInteger, MAX_PORT_ATTEMPTS; lia).
  assert (S3 : safeInteger (65535 + MAX_PORT_ATTEMPTS - 1))
    by (unfold safeInteger, MAX_PORT_ATTEMPTS; lia).
  assert (S4 : safeInteger 3000) by (unfold safeInteger; lia).
  assert (S5 : safeInteger 2) by (unfold safeInteger; lia).
  assert (S6 : safeInteger (3000 + 2 - 1)) by (unfold safeInteger; lia).
  split; [exact S1|]. split; [exact S2|]. split.
  - apply (proj2 (findAvailablePort_failures portFree 65535 MAX_PORT_ATTEMPTS
                    "ERR_SOCKET_BAD_PORT" S1 S2 S3)).
    left. exists 65536. split; [unfold MAX_PORT_ATTEMPTS; lia|].
    split; [reflexivity|]. intros p Hp. assert (p = 65535) as -> by lia. reflexivity.
  - apply (proj2 (findAvailablePort_failures portFree 3000 2 _ S4 S5 S6)).
    right. split; [|vm_compute; reflexivity].
    intros p Hp. assert (p = 3000 \/ p = 3001) as [-> | ->] by lia; reflexivity.
Defined.

End ServerFacts.
